(** * CogniTest: response parsing, severity scoring and log interpretation

    A shallow embedding of [cognitest/core/bug_classifier.py],
    [cognitest/core/log_interpreter.py] and the two prompt templates they
    use, of the response that [cognitest/core/llm_engine.py] keeps of a
    generation, and of the counts of
    [experiments/run_classification_experiment.py], with the properties of
    the written specification, and further properties of the code, stated
    and proved over it.

    Conventions of the embedding.
    - A Python [str] is a Rocq [string]: a sequence of characters with codes
      below 256 (Latin-1). The keywords, labels and braces the parsers look
      for are ASCII, and on this alphabet [str.lower], [str.strip], [\s] and
      [re.IGNORECASE] are the tables given in [PyStr].
    - A Python [float] is a primitive binary64 [float]; an [int] is a [Z].
    - A [dict] with string keys is a [gmap string _].
    - Raising is explicit: a computation returns [Ok v] or [Raise e].
    - [json.loads] and the text-generation service are external: they are
      the section variables [json_loads] and [generate]. *)

From Stdlib Require Import ZArith Floats String Ascii List Bool Lia.
From stdpp Require Import gmap strings.

Local Open Scope string_scope.

(** ** Python values and exceptions *)

Module Py.

(** The exceptions that the modelled code can meet. [ServiceError] stands
    for whatever the text-generation service raises. [Unmodelled] is not a
    Python exception: it marks an operand outside the fragment of Python
    modelled here, and no statement below concludes anything from it. *)
Inductive exn : Type :=
| TypeError
| OverflowError
| KeyError
| JSONDecodeError
| ServiceError (what : string)
| Unmodelled.

Inductive result (A : Type) : Type :=
| Ok (a : A)
| Raise (e : exn).
Arguments Ok {A} a.
Arguments Raise {A} e.

Definition bind {A B : Type} (m : result A) (k : A -> result B) : result B :=
  match m with
  | Ok a => k a
  | Raise e => Raise e
  end.

Definition raises {A : Type} (m : result A) : Prop :=
  match m with Ok _ => False | Raise _ => True end.

(** What [json.loads] can build, and so what a classification dict holds. *)
#[warnings="-register-all"]
Inductive value : Type :=
| VNone
| VBool (b : bool)
| VInt (n : Z)
| VFloat (f : float)
| VStr (s : string)
| VList (items : list value)
| VDict (items : list (string * value)).

(** [bool] is a subclass of [int]; both and [float] are the numbers. *)
Inductive number : Type :=
| NInt (n : Z)
| NFloat (f : float).

Definition number_of (v : value) : option number :=
  match v with
  | VBool b => Some (NInt (Z.b2z b))
  | VInt n => Some (NInt n)
  | VFloat f => Some (NFloat f)
  | _ => None
  end.

(** [float(n)] for an [int]: round to nearest, ties to even;
    [OverflowError] when the rounded value is not finite. *)
Definition float_of_int (n : Z) : result float :=
  match binary_normalize prec emax n 0 false with
  | S754_infinity _ => Raise OverflowError
  | sf => Ok (SF2Prim sf)
  end.

(** The same conversion where no overflow is possible. *)
Definition float_of_small_int (n : Z) : float :=
  SF2Prim (binary_normalize prec emax n 0 false).

(** The other operand of an arithmetic operation on a float: a number,
    converted to [float]. *)
Definition as_float (v : value) : result float :=
  match number_of v with
  | Some (NInt n) => float_of_int n
  | Some (NFloat f) => Ok f
  | None => Raise TypeError
  end.

(** [c * v] for a float literal [c]. *)
Definition float_mul (c : float) (v : value) : result float :=
  bind (as_float v) (fun x => Ok (c * x)%float).

(** Exact comparison of the value of a float with an integer. *)
Definition SF_compare_Z (x : spec_float) (k : Z) : option comparison :=
  match x with
  | S754_nan => None
  | S754_infinity s => Some (if s then Lt else Gt)
  | S754_zero _ => Some (0 ?= k)%Z
  | S754_finite s m e =>
      let z := cond_Zopp s (Zpos m) in
      Some (if (0 <=? e)%Z then (z * 2 ^ e ?= k)%Z else (z ?= k * 2 ^ (- e))%Z)
  end.

(** [f < k] and [f > k] for a float and an int. Python compares the two
    by value; an int of at most 48 bits is first converted, exactly, to a
    float. *)
Definition float_lt_int (f : float) (k : Z) : bool :=
  if (Z.abs k <? 2 ^ 48)%Z then (f <? float_of_small_int k)%float
  else match SF_compare_Z (Prim2SF f) k with Some Lt => true | _ => false end.

Definition float_gt_int (f : float) (k : Z) : bool :=
  if (Z.abs k <? 2 ^ 48)%Z then (float_of_small_int k <? f)%float
  else match SF_compare_Z (Prim2SF f) k with Some Gt => true | _ => false end.

(** [v < k] and [v > k] for an int [k]: [TypeError] unless [v] is a
    number. *)
Definition py_lt (v : value) (k : Z) : result bool :=
  match number_of v with
  | Some (NInt n) => Ok (n <? k)%Z
  | Some (NFloat f) => Ok (float_lt_int f k)
  | None => Raise TypeError
  end.

Definition py_gt (v : value) (k : Z) : result bool :=
  match number_of v with
  | Some (NInt n) => Ok (k <? n)%Z
  | Some (NFloat f) => Ok (float_gt_int f k)
  | None => Raise TypeError
  end.

(** [min(k, v)]: the builtin keeps its first argument unless a later one
    is strictly smaller. [max(k, v)] likewise with strictly greater. *)
Definition py_min (k : Z) (v : value) : result value :=
  bind (py_lt v k) (fun smaller => Ok (if smaller then v else VInt k)).

Definition py_max (k : Z) (v : value) : result value :=
  bind (py_gt v k) (fun greater => Ok (if greater then v else VInt k)).

(** [d.get(key, default)] and [key in d]. *)
Definition get (d : gmap string value) (key : string) (default : value) : value :=
  match d !! key with
  | Some v => v
  | None => default
  end.

Definition has_key {A : Type} (d : gmap string A) (key : string) : bool :=
  match d !! key with
  | Some _ => true
  | None => false
  end.

End Py.

Export Py.

Declare Scope py_scope.
Notation "'let*' x ':=' m 'in' k" := (Py.bind m (fun x => k))
  (at level 10, x name, m at level 100, k at level 200,
   format "'[v' 'let*'  x  ':='  m  'in' '/' k ']'") : py_scope.
Local Open Scope py_scope.

(** ** Python string operations *)

Module PyStr.

Definition nl_char : ascii := "010"%char.
Definition nl : string := String nl_char "".
Definition dquote : string := String "034"%char "".

(** [str.isspace] on one character, which is also the class [\s]. *)
Definition isspace (c : ascii) : bool :=
  let n := N_of_ascii c in
  ((9 <=? n) && (n <=? 13) || (28 <=? n) && (n <=? 32)
   || (n =? 133) || (n =? 160))%N.

Definition isupper (c : ascii) : bool :=
  let n := N_of_ascii c in
  ((65 <=? n) && (n <=? 90)
   || (192 <=? n) && (n <=? 222) && negb (n =? 215))%N.

Definition lower_char (c : ascii) : ascii :=
  if isupper c then ascii_of_N (N_of_ascii c + 32) else c.

(** [s.lower()] *)
Fixpoint lower (s : string) : string :=
  match s with
  | "" => ""
  | String c rest => String (lower_char c) (lower rest)
  end.

(** [needle in hay] *)
Fixpoint contains (needle hay : string) : bool :=
  String.prefix needle hay
  || match hay with
     | "" => false
     | String _ rest => contains needle rest
     end.

Fixpoint lstrip (s : string) : string :=
  match s with
  | "" => ""
  | String c rest => if isspace c then lstrip rest else s
  end.

Fixpoint rstrip (s : string) : string :=
  match s with
  | "" => ""
  | String c rest =>
      match rstrip rest with
      | "" => if isspace c then "" else String c ""
      | kept => String c kept
      end
  end.

(** [s.strip()] *)
Definition strip (s : string) : string := rstrip (lstrip s).

(** [s[:n]] *)
Fixpoint take (n : nat) (s : string) : string :=
  match n, s with
  | S n', String c rest => String c (take n' rest)
  | _, _ => ""
  end.

(** [s.split('\n\n')]: cut at each blank line found from the left; the
    result is never empty. *)
Fixpoint split_blank (s : string) : list string :=
  match s with
  | "" => [""]
  | String c rest =>
      let keep :=
        match split_blank rest with
        | p :: ps => String c p :: ps
        | [] => [String c ""]
        end in
      if Ascii.eqb c nl_char then
        match rest with
        | String c' rest' =>
            if Ascii.eqb c' nl_char then "" :: split_blank rest' else keep
        | "" => keep
        end
      else keep
  end.


End PyStr.

Export PyStr.

(** ** The two regular-expression shapes of the parsers *)

Module Re.

(** *** [re.search(r'\{[^{}]*\}', s, re.DOTALL)] *)

Definition is_brace (c : ascii) : bool :=
  Ascii.eqb c "{" || Ascii.eqb c "}".

(** [[^{}]*]: the longest brace-free prefix, and what follows it. *)
Fixpoint span_nobrace (s : string) : string * string :=
  match s with
  | "" => ("", "")
  | String c rest =>
      if is_brace c then ("", s)
      else let (body, tail) := span_nobrace rest in (String c body, tail)
  end.

(** The pattern tried at the start of [s]; the result is [group(0)].
    The star is greedy, and giving characters back cannot help: what
    follows a shorter run is not a brace. *)
Definition match_object (s : string) : option string :=
  match s with
  | String c rest =>
      if Ascii.eqb c "{" then
        match span_nobrace rest with
        | (body, String c' _) =>
            if Ascii.eqb c' "}" then Some ("{" +:+ body +:+ "}") else None
        | (_, "") => None
        end
      else None
  | "" => None
  end.

(** [re.search]: the match at the leftmost position that has one. *)
Fixpoint search_object (s : string) : option string :=
  match match_object s with
  | Some found => Some found
  | None =>
      match s with
      | "" => None
      | String _ rest => search_object rest
      end
  end.

(** *** The section patterns of the log interpreter, with
    [re.DOTALL | re.IGNORECASE]

    Both shapes are [LABEL \s* (.*?) (?=LOOK)]: a literal label matched
    without regard to case, a greedy run of whitespace, a lazy group and a
    lookahead. *)

(** The literal [label] at the start of [s], ignoring case: what follows
    it. *)
Fixpoint match_label (label s : string) : option string :=
  match label, s with
  | "", _ => Some s
  | String a label', String c rest =>
      if Ascii.eqb (lower_char a) (lower_char c) then match_label label' rest
      else None
  | String _ _, "" => None
  end.

(** [\s*] *)
Definition skip_space (s : string) : string := lstrip s.

(** [(.*?)(?=LOOK)]: the shortest prefix after which [look] holds. *)
Fixpoint lazy_group (look : string -> bool) (s : string) : option string :=
  if look s then Some ""
  else match s with
       | "" => None
       | String c rest => option_map (String c) (lazy_group look rest)
       end.

(** [$] without [re.MULTILINE]: the end of the text, or just before a
    newline that ends it. *)
Definition at_dollar (s : string) : bool :=
  String.eqb s "" || String.eqb s nl.

(** [(?=\*\*|$)] *)
Definition look_bold (s : string) : bool :=
  String.prefix "**" s || at_dollar s.

(** [(?=|$)]: the first alternative is empty and always succeeds. *)
Definition look_plain (s : string) : bool :=
  true || at_dollar s.

(** One attempt at the start of [s]; the result is [group(1)]. *)
Definition match_section (label : string) (look : string -> bool) (s : string)
  : option string :=
  match match_label label s with
  | Some after => lazy_group look (skip_space after)
  | None => None
  end.

Fixpoint search_section (label : string) (look : string -> bool) (s : string)
  : option string :=
  match match_section label look s with
  | Some group => Some group
  | None =>
      match s with
      | "" => None
      | String _ rest => search_section label look rest
      end
  end.

(** [pattern.replace(old, new)] on the pattern text, for a non-empty
    [old]. *)
Fixpoint drop (n : nat) (s : string) : string :=
  match n, s with
  | S n', String _ rest => drop n' rest
  | _, _ => s
  end.

Fixpoint replace_fuel (fuel : nat) (old new s : string) : string :=
  match fuel with
  | O => s
  | S fuel' =>
      if String.prefix old s then new +:+ replace_fuel fuel' old new (drop (String.length old) s)
      else match s with
           | "" => ""
           | String c rest => String c (replace_fuel fuel' old new rest)
           end
  end.

Definition replace (old new s : string) : string :=
  replace_fuel (S (String.length s)) old new s.

(** The text before the first occurrence of [sep], and the text after
    it. *)
Fixpoint cut_at (sep s : string) : option (string * string) :=
  if String.prefix sep s then Some ("", drop (String.length sep) s)
  else match s with
       | "" => None
       | String c rest =>
           match cut_at sep rest with
           | Some (before, after) => Some (String c before, after)
           | None => None
           end
       end.

(** A label as written in a pattern: [\c] stands for the character [c]. *)
Fixpoint unescape (s : string) : string :=
  match s with
  | "" => ""
  | String c rest =>
      if Ascii.eqb c "\" then
        match rest with
        | String c' rest' => String c' (unescape rest')
        | "" => ""
        end
      else String c (unescape rest)
  end.

(** Reading a pattern text of one of the two shapes: its label and its
    lookahead. *)
Definition compile (pattern : string) : option (string * (string -> bool)) :=
  match cut_at "\s*(.*?)(?=" pattern with
  | Some (label, tail) =>
      if String.eqb tail "\*\*|$)" then Some (unescape label, look_bold)
      else if String.eqb tail "|$)" then Some (unescape label, look_plain)
      else None
  | None => None
  end.

(** [re.search(pattern, s, re.DOTALL | re.IGNORECASE)], giving [group(1)]
    of the match. *)
Definition search (pattern s : string) : option string :=
  match compile pattern with
  | Some (label, look) => search_section label look s
  | None => None
  end.

End Re.

(** ** [cognitest/utils/prompt_templates.py] *)

Module PromptTemplates.

Definition bug_classification_prompt (error_message test_context endpoint : string)
  : string :=
    "You are a senior QA engineer analyzing a software bug. Classify the severity of this bug based on business impact, frequency, and recovery difficulty.

**Failed Test Context:**
" +:+ test_context +:+ "

**Error Message:**
" +:+ error_message +:+ "

**Affected Endpoint:**
" +:+ endpoint +:+ "

**Classification Criteria:**
- **Critical**: Data loss, security vulnerabilities, system crashes, complete feature failure
- **High**: Major functionality broken, significant user impact, no workaround
- **Medium**: Partial functionality broken, moderate user impact, workaround available
- **Low**: Minor issues, cosmetic problems, negligible user impact

**Scoring Factors:**
1. **Impact** (0-10): Business criticality and data integrity
2. **Frequency** (0-10): How often users encounter this
3. **Recovery** (0-10): Difficulty of workaround or fix

**Output Format:**
Provide your analysis in EXACTLY this JSON format (no additional text):
{
    " +:+ dquote +:+ "severity" +:+ dquote +:+ ": " +:+ dquote +:+ "Critical|High|Medium|Low" +:+ dquote +:+ ",
    " +:+ dquote +:+ "impact_score" +:+ dquote +:+ ": <0-10>,
    " +:+ dquote +:+ "frequency_score" +:+ dquote +:+ ": <0-10>,
    " +:+ dquote +:+ "recovery_score" +:+ dquote +:+ ": <0-10>,
    " +:+ dquote +:+ "weighted_score" +:+ dquote +:+ ": <calculated using weights 0.5, 0.3, 0.2>,
    " +:+ dquote +:+ "reasoning" +:+ dquote +:+ ": " +:+ dquote +:+ "Brief explanation of classification" +:+ dquote +:+ "
}

Analyze and classify now:".

Definition log_interpretation_prompt (error_log service_name : string) : string :=
    "You are a debugging expert analyzing a system failure. Provide a clear, human-readable explanation of what went wrong and how to fix it.

**Service:** " +:+ service_name +:+ "

**Error Log:**
" +:+ error_log +:+ "

**Your Task:**
1. Identify the root cause of the failure
2. Explain what components are affected
3. Provide actionable remediation steps
4. Suggest preventive measures

**Output Format:**
Provide your analysis in this structure:

**Root Cause:**
<One clear sentence explaining what caused the failure>

**Affected Components:**
<List the impacted services, endpoints, or data>

**Recommended Fix:**
<Step-by-step remediation instructions>

**Prevention:**
<Suggestions to prevent similar issues>

Analyze this error now:".

End PromptTemplates.

(** ** [cognitest/core/bug_classifier.py] *)

Module bug_classifier.

Abbreviation dict := (gmap string value).

(** [class Severity(Enum)] *)
Inductive Severity : Type := CRITICAL | HIGH | MEDIUM | LOW.

Definition Severity_value (s : Severity) : string :=
  match s with
  | CRITICAL => "Critical"
  | HIGH => "High"
  | MEDIUM => "Medium"
  | LOW => "Low"
  end.

(** [[s.value for s in Severity]] *)
Definition valid_severities : list string :=
  map Severity_value [CRITICAL; HIGH; MEDIUM; LOW].

(** [v in valid_severities], for a list of strings: only a string is
    equal to a string. *)
Definition value_in (v : value) (labels : list string) : bool :=
  match v with
  | VStr s => existsb (String.eqb s) labels
  | _ => false
  end.

Definition w_impact : float := 0.5.
Definition w_frequency : float := 0x1.3333333333333p-2.  (* 0.3 *)
Definition w_recovery : float := 0x1.999999999999ap-3.   (* 0.2 *)

(** The expression
    [0.5 * c.get('impact_score', 5) + 0.3 * c.get('frequency_score', 5)
     + 0.2 * c.get('recovery_score', 5)],
    which the source writes out twice; operands are evaluated from left
    to right. *)
Definition weighted_sum (classification : dict) : result float :=
  let* i := float_mul w_impact (get classification "impact_score" (VInt 5)) in
  let* f := float_mul w_frequency (get classification "frequency_score" (VInt 5)) in
  let* r := float_mul w_recovery (get classification "recovery_score" (VInt 5)) in
  Ok (i + f + r)%float.

Definition _fallback_parse (response : string) : dict :=
  let severity :=
    if contains "critical" (lower response) then Severity_value CRITICAL
    else if contains "high" (lower response) then Severity_value HIGH
    else if contains "low" (lower response) then Severity_value LOW
    else Severity_value MEDIUM in
  {[ "severity" := VStr severity;
     "impact_score" := VInt 5;
     "frequency_score" := VInt 5;
     "recovery_score" := VInt 5;
     "weighted_score" := VFloat 5;
     "reasoning" := VStr "Parsed from unstructured response" ]}.

Definition _default_classification : dict :=
  {[ "severity" := VStr (Severity_value MEDIUM);
     "impact_score" := VInt 5;
     "frequency_score" := VInt 5;
     "recovery_score" := VInt 5;
     "weighted_score" := VFloat 5;
     "reasoning" := VStr "Default classification due to parsing error" ]}.

Definition score_keys : list string :=
  ["impact_score"; "frequency_score"; "recovery_score"].

(** [max(0, min(10, v))] *)
Definition clamp (v : value) : result value :=
  let* low := py_min 10 v in
  py_max 0 low.

(** The body of the loop of [_validate_classification]. *)
Definition clamp_score (classification : dict) (score_key : string) : result dict :=
  match classification !! score_key with
  | Some v =>
      let* clamped := clamp v in
      Ok (<[score_key := clamped]> classification)
  | None => Ok classification
  end.

Fixpoint clamp_scores (keys : list string) (classification : dict) : result dict :=
  match keys with
  | [] => Ok classification
  | score_key :: keys' =>
      let* classification := clamp_score classification score_key in
      clamp_scores keys' classification
  end.

Definition _validate_classification (classification : dict) : result dict :=
  let classification :=
    if value_in (get classification "severity" VNone) valid_severities
    then classification
    else <["severity" := VStr (Severity_value MEDIUM)]> classification in
  let* classification := clamp_scores score_keys classification in
  let* w := weighted_sum classification in
  Ok (<["weighted_score" := VFloat w]> classification).

(** An entry of [classification_history]. *)
Record history_item : Type := {
  endpoint : string;
  classification : dict
}.

(** The dict returned by [get_statistics]. *)
Record statistics : Type := {
  total_classifications : Z;
  severity_distribution : gmap string Z;
  average_weighted_score : float
}.

(** [total_score += w], the total being an [int] or a [float]. *)
Definition py_add (total : number) (w : value) : result number :=
  match total, number_of w with
  | _, None => Raise TypeError
  | NInt a, Some (NInt b) => Ok (NInt (a + b))
  | NInt a, Some (NFloat y) => let* x := float_of_int a in Ok (NFloat (x + y))
  | NFloat x, Some (NInt b) => let* y := float_of_int b in Ok (NFloat (x + y))
  | NFloat x, Some (NFloat y) => Ok (NFloat (x + y))
  end.

(** [a / b] for two ints, [b] positive: the quotient rounded once. *)
Definition int_truediv (a b : Z) : result float :=
  match a with
  | Z0 => Ok 0%float
  | _ =>
      let '(m, e, l) := SFdiv_core_binary prec emax (Z.abs a) 0 b 0 in
      match binary_round_aux prec emax (a <? 0)%Z m e l with
      | S754_infinity _ => Raise OverflowError
      | sf => Ok (SF2Prim sf)
      end
  end.

(** [total_score / len(history)], the length being positive. *)
Definition py_truediv (total : number) (n : Z) : result float :=
  match total with
  | NFloat x => let* y := float_of_int n in Ok (x / y)%float
  | NInt a => int_truediv a n
  end.

(** The key under which [severity_counts] files a severity. A list or a
    dict is unhashable; the table of the model has string keys, the only
    ones [_validate_classification] lets through. *)
Definition severity_key (v : value) : result string :=
  match v with
  | VStr s => Ok s
  | VList _ | VDict _ => Raise TypeError
  | _ => Raise Unmodelled
  end.

(** [d[key]] *)
Definition getitem (d : dict) (key : string) : result value :=
  match d !! key with
  | Some v => Ok v
  | None => Raise KeyError
  end.

(** The loop of [get_statistics]. *)
Fixpoint count_loop (history : list history_item)
    (severity_counts : gmap string Z) (total_score : number)
  : result (gmap string Z * number) :=
  match history with
  | [] => Ok (severity_counts, total_score)
  | item :: rest =>
      let* severity := getitem (classification item) "severity" in
      let* key := severity_key severity in
      let severity_counts :=
        <[key := (default 0 (severity_counts !! key) + 1)%Z]> severity_counts in
      let* w := getitem (classification item) "weighted_score" in
      let* total_score := py_add total_score w in
      count_loop rest severity_counts total_score
  end.

(** An entry of the list that [classify_batch] returns, the dict
    [{**bug, "classification": classification}]: the entries of [bug]
    under the other keys, and the classification. *)
Record batch_result : Type := {
  bug_fields : gmap string value;
  batch_classification : dict
}.

(** A [str] argument. [classify] formats its arguments into the prompt;
    it is modelled on strings. *)
Definition str_of (v : value) : result string :=
  match v with
  | VStr s => Ok s
  | _ => Raise Unmodelled
  end.

(** The arguments of the call of [classify] in [classify_batch]:
    [bug['error_message']], [bug.get('test_context', '')] and
    [bug['endpoint']], evaluated in this order. *)
Definition bug_arguments (bug : gmap string value)
  : result (string * string * string) :=
  let* error_message := getitem bug "error_message" in
  let test_context := get bug "test_context" (VStr "") in
  let* endpoint := getitem bug "endpoint" in
  let* error_message := str_of error_message in
  let* test_context := str_of test_context in
  let* endpoint := str_of endpoint in
  Ok (error_message, test_context, endpoint).

Section Classifier.

(** The text-generation service: [generate engine prompt temperature]
    gives the response, or raises, and the next state of the service. *)
Context {engine : Type}.
Variable generate : engine -> string -> float -> result string * engine.

(** [json.loads] on the text of one brace-delimited object. *)
Variable json_loads : string -> result dict.

Record BugClassifier : Type := {
  llm_engine : engine;
  classification_history : list history_item
}.

(** [__init__] *)
Definition init (llm : engine) : BugClassifier :=
  {| llm_engine := llm; classification_history := [] |}.

Definition _parse_classification (response : string) : result dict :=
  let attempt :=
    let* classification :=
      match Re.search_object response with
      | Some json_str => json_loads json_str
      | None => Ok (_fallback_parse response)
      end in
    if has_key classification "weighted_score" then Ok classification
    else
      let* w := weighted_sum classification in
      Ok (<["weighted_score" := VFloat w]> classification) in
  match attempt with
  | Raise JSONDecodeError => Ok _default_classification
  | outcome => outcome
  end.

Definition temperature : float := 0x1.999999999999ap-3.  (* 0.2 *)

Definition classify (self : BugClassifier)
    (error_message test_context endpoint : string)
  : result dict * BugClassifier :=
  let prompt :=
    PromptTemplates.bug_classification_prompt error_message test_context endpoint in
  let (response, llm) := generate (llm_engine self) prompt temperature in
  let outcome :=
    let* response := response in
    let* classification := _parse_classification response in
    _validate_classification classification in
  match outcome with
  | Ok classification =>
      (Ok classification,
       {| llm_engine := llm;
          classification_history :=
            classification_history self
            ++ [{| endpoint := endpoint; classification := classification |}] |})
  | Raise e =>
      (Raise e,
       {| llm_engine := llm;
          classification_history := classification_history self |})
  end.

Definition get_statistics (self : BugClassifier) : result statistics :=
  match classification_history self with
  | [] =>
      Ok {| total_classifications := 0;
            severity_distribution := ∅;
            average_weighted_score := 0 |}
  | history =>
      let* counted := count_loop history ∅ (NInt 0) in
      let (severity_counts, total_score) := counted in
      let* average := py_truediv total_score (Z.of_nat (length history)) in
      Ok {| total_classifications := Z.of_nat (length history);
            severity_distribution := severity_counts;
            average_weighted_score := average |}
  end.

(** [classify_batch]: the bugs are classified in order; an exception
    ends the loop, and the list built so far is lost. *)
Fixpoint classify_batch (self : BugClassifier) (bugs : list (gmap string value))
  : result (list batch_result) * BugClassifier :=
  match bugs with
  | [] => (Ok [], self)
  | bug :: rest =>
      match bug_arguments bug with
      | Raise e => (Raise e, self)
      | Ok (error_message, test_context, endpoint) =>
          match classify self error_message test_context endpoint with
          | (Raise e, self) => (Raise e, self)
          | (Ok classification, self) =>
              let item :=
                {| bug_fields := delete "classification" bug;
                   batch_classification := classification |} in
              let (results, self) := classify_batch self rest in
              (let* results := results in Ok (item :: results), self)
          end
      end
  end.

(** The states a classifier goes through: a fresh one, then any
    sequence of calls of [classify]. *)
Inductive reachable : BugClassifier -> Prop :=
| reachable_init (llm : engine) : reachable (init llm)
| reachable_classify (self : BugClassifier) (error_message test_context endpoint : string) :
    reachable self ->
    reachable (snd (classify self error_message test_context endpoint)).

End Classifier.

End bug_classifier.

(** ** [cognitest/core/log_interpreter.py] *)

Module log_interpreter.

Abbreviation interpretation := (gmap string string).

(** The dict [sections] of [_parse_interpretation], in its order. *)
Definition sections : list (string * string) :=
  [ ("root_cause", "\*\*Root Cause:\*\*\s*(.*?)(?=\*\*|$)");
    ("affected_components", "\*\*Affected Components:\*\*\s*(.*?)(?=\*\*|$)");
    ("recommended_fix", "\*\*Recommended Fix:\*\*\s*(.*?)(?=\*\*|$)");
    ("prevention", "\*\*Prevention:\*\*\s*(.*?)(?=\*\*|$)") ].

(** [pattern.replace(r"\*\*", "").replace(r"\*", "")] *)
Definition pattern_simple (pattern : string) : string :=
  Re.replace "\*" "" (Re.replace "\*\*" "" pattern).

(** The body of the loop over [sections]. *)
Definition extract_section (response : string) (interp : interpretation)
    (section : string * string) : interpretation :=
  let (key, pattern) := section in
  match Re.search pattern response with
  | Some group => <[key := strip group]> interp
  | None =>
      match Re.search (pattern_simple pattern) response with
      | Some group => <[key := strip group]> interp
      | None => interp
      end
  end.

Definition _fallback_parse (response : string) : interpretation :=
  let paragraphs :=
    map strip
      (List.filter (fun p => negb (String.eqb (strip p) "")) (split_blank response)) in
  {[ "root_cause" := nth 0 paragraphs "Unable to determine root cause";
     "affected_components" := nth 1 paragraphs "Unknown";
     "recommended_fix" := nth 2 paragraphs "Manual investigation required";
     "prevention" := nth 3 paragraphs "N/A";
     "raw_response" := response ]}.

(** The first part of [_parse_interpretation]: the initial dict and the
    loop over [sections]. *)
Definition primary_parse (response : string) : interpretation :=
  let interp : interpretation :=
    {[ "root_cause" := "";
       "affected_components" := "";
       "recommended_fix" := "";
       "prevention" := "";
       "raw_response" := response ]} in
  fold_left (extract_section response) sections interp.

Definition _parse_interpretation (response : string) : result interpretation :=
  let interp := primary_parse response in
  match interp !! "root_cause" with
  | Some "" => Ok (_fallback_parse response)
  | Some _ => Ok interp
  | None => Raise KeyError
  end.

(** An entry of [interpretation_history]. *)
Record history_item : Type := {
  service : string;
  interpretation_of : interpretation
}.

(** An entry of the list that [interpret_batch] returns, the dict
    [{**log_entry, "interpretation": interpretation}]. *)
Record batch_result : Type := {
  log_fields : gmap string value;
  batch_interpretation : interpretation
}.

(** [log_entry['error_log']] and [log_entry['service_name']], evaluated
    in this order; [interpret] is modelled on strings. *)
Definition log_arguments (log_entry : gmap string value) : result (string * string) :=
  let* error_log := bug_classifier.getitem log_entry "error_log" in
  let* service_name := bug_classifier.getitem log_entry "service_name" in
  let* error_log := bug_classifier.str_of error_log in
  let* service_name := bug_classifier.str_of service_name in
  Ok (error_log, service_name).

(** The dict returned by [get_statistics]; the key [unique_services] is
    absent when the history is empty. *)
Record statistics : Type := {
  total_interpretations : Z;
  services_analyzed : list string;
  unique_services : option Z
}.

(** The set built by the loop of [get_statistics]. *)
Definition services_of (history : list history_item) : gset string :=
  fold_left (fun services item => {[ service item ]} ∪ services) history ∅.

Section Interpreter.

Context {engine : Type}.
Variable generate : engine -> string -> float -> result string * engine.

Record LogInterpreter : Type := {
  llm_engine : engine;
  interpretation_history : list history_item
}.

Definition init (llm : engine) : LogInterpreter :=
  {| llm_engine := llm; interpretation_history := [] |}.

Definition temperature : float := 0x1.3333333333333p-2.  (* 0.3 *)

Definition interpret (self : LogInterpreter) (error_log service_name : string)
  : result interpretation * LogInterpreter :=
  let prompt := PromptTemplates.log_interpretation_prompt error_log service_name in
  let (response, llm) := generate (llm_engine self) prompt temperature in
  let outcome :=
    let* response := response in
    let* interp := _parse_interpretation response in
    let interp := <["service_name" := service_name]> interp in
    let interp := <["original_log" := take 500 error_log]> interp in
    Ok interp in
  match outcome with
  | Ok interp =>
      (Ok interp,
       {| llm_engine := llm;
          interpretation_history :=
            interpretation_history self
            ++ [{| service := service_name; interpretation_of := interp |}] |})
  | Raise e =>
      (Raise e,
       {| llm_engine := llm;
          interpretation_history := interpretation_history self |})
  end.

(** [interpret_batch] *)
Fixpoint interpret_batch (self : LogInterpreter) (logs : list (gmap string value))
  : result (list batch_result) * LogInterpreter :=
  match logs with
  | [] => (Ok [], self)
  | log_entry :: rest =>
      match log_arguments log_entry with
      | Raise e => (Raise e, self)
      | Ok (error_log, service_name) =>
          match interpret self error_log service_name with
          | (Raise e, self) => (Raise e, self)
          | (Ok interp, self) =>
              let item :=
                {| log_fields := delete "interpretation" log_entry;
                   batch_interpretation := interp |} in
              let (results, self) := interpret_batch self rest in
              (let* results := results in Ok (item :: results), self)
          end
      end
  end.

(** [list(services)]: the elements of the set, each once, in an order
    that the language leaves open. *)
Variable list_of_set : gset string -> list string.

Definition get_statistics (self : LogInterpreter) : statistics :=
  match interpretation_history self with
  | [] =>
      {| total_interpretations := 0;
         services_analyzed := [];
         unique_services := None |}
  | history =>
      let services := services_of history in
      {| total_interpretations := Z.of_nat (length history);
         services_analyzed := list_of_set services;
         unique_services := Some (Z.of_nat (size services)) |}
  end.

End Interpreter.

End log_interpreter.

(** ** [cognitest/core/llm_engine.py]: the response kept by [generate] *)

Module LLMEngine.

(** The end of the instruction block of the chat format. *)
Definition marker : string := "[/INST]".

(** [text.split(sep)[-1]] for a non-empty [sep]: the text is cut at each
    occurrence found from the left, and the last piece is kept. Every cut
    shortens the text, so its length is fuel enough. *)
Fixpoint last_piece_fuel (fuel : nat) (sep s : string) : string :=
  match fuel with
  | O => s
  | S fuel' =>
      match Re.cut_at sep s with
      | Some (_, after) => last_piece_fuel fuel' sep after
      | None => s
      end
  end.

Definition last_piece (sep s : string) : string :=
  last_piece_fuel (String.length s) sep s.

(** The last step of [generate], on the decoded text:
    [full_text.split("[/INST]")[-1].strip()] when the marker occurs,
    [full_text.strip()] otherwise. *)
Definition extract_response (full_text : string) : string :=
  if contains marker full_text then strip (last_piece marker full_text)
  else strip full_text.

End LLMEngine.

(** ** [experiments/run_classification_experiment.py]: the counts of
    [calculate_accuracy_metrics] *)

Module classification_experiment.

(** A [defaultdict(int)]. *)
Abbreviation counter := (gmap string Z).

(** [c[k]] *)
Definition count (c : counter) (k : string) : Z := default 0%Z (c !! k).

(** [c[k] += 1] *)
Definition bump (c : counter) (k : string) : counter := <[k := (count c k + 1)%Z]> c.

Record tallies : Type := {
  tp : counter;
  fp : counter;
  fn : counter
}.

(** The body of the loop over [zip(predictions, ground_truth)]. *)
Definition tally_step (t : tallies) (pair : string * string) : tallies :=
  let (pred, truth) := pair in
  if String.eqb pred truth then
    {| tp := bump (tp t) pred; fp := fp t; fn := fn t |}
  else
    {| tp := tp t; fp := bump (fp t) pred; fn := bump (fn t) truth |}.

Definition tally (predictions ground_truth : list string) : tallies :=
  fold_left tally_step (combine predictions ground_truth)
    {| tp := ∅; fp := ∅; fn := ∅ |}.

Definition severity_classes : list string := ["Critical"; "High"; "Medium"; "Low"].

(** [metrics[severity]["support"]] *)
Definition support (t : tallies) (severity : string) : Z :=
  (count (tp t) severity + count (fn t) severity)%Z.

(** [sum(1 for p, t in zip(predictions, ground_truth) if p == t)] *)
Definition correct_predictions (predictions ground_truth : list string) : Z :=
  fold_left (fun total pair => if String.eqb (fst pair) (snd pair) then (total + 1)%Z else total)
    (combine predictions ground_truth) 0%Z.

(** [sum(m["support"] for m in metrics.values())], the dict holding the
    four classes in their order. *)
Definition total_samples (t : tallies) : Z :=
  fold_left (fun total severity => (total + support t severity)%Z) severity_classes 0%Z.

End classification_experiment.

(** * Sample inputs

    A text-generation service with a canned answer, a decoder given by a
    table, and the responses, logs and batches the statements below are
    run on. *)

Module samples.

(** A text-generation service that gives the same answer to every prompt
    and keeps the prompts it was sent. *)
Definition canned (response : string) (sent : list string) (prompt : string)
    (temperature : float) : result string * list string :=
  (Ok response, (sent ++ [prompt])%list).

(** [json.loads] on the texts of a table; any other text is taken to be
    malformed. *)
Definition loads_table (table : list (string * gmap string value)) (text : string)
  : result (gmap string value) :=
  match find (fun entry => String.eqb (fst entry) text) table with
  | Some entry => Ok (snd entry)
  | None => Raise JSONDecodeError
  end.

Definition quoted (s : string) : string := dquote +:+ s +:+ dquote.

(** The JSON text [{"severity": "High"}]. *)
Definition text_high : string :=
  "{" +:+ quoted "severity" +:+ ": " +:+ quoted "High" +:+ "}".

(** The JSON text of the worked example of the specification. *)
Definition text_clamped : string :=
  "{" +:+ quoted "severity" +:+ ": " +:+ quoted "High"
  +:+ ", " +:+ quoted "impact_score" +:+ ": 9"
  +:+ ", " +:+ quoted "frequency_score" +:+ ": 20"
  +:+ ", " +:+ quoted "recovery_score" +:+ ": -3}".

(** The JSON text [{"impact_score": "high"}]. *)
Definition text_worded : string :=
  "{" +:+ quoted "impact_score" +:+ ": " +:+ quoted "high" +:+ "}".

(** What the worked example decodes to. *)
Definition dict_clamped : gmap string value :=
  {[ "severity" := VStr "High"; "impact_score" := VInt 9;
     "frequency_score" := VInt 20; "recovery_score" := VInt (-3) ]}.

(** A decoded object with a severity outside the four labels. *)
Definition dict_severe : gmap string value := {[ "severity" := VStr "Severe" ]}.

(** What [text_high] decodes to. *)
Definition dict_high : gmap string value := {[ "severity" := VStr "High" ]}.

Definition sample_loads : string -> result (gmap string value) :=
  loads_table
    [ (text_high, dict_high);
      (text_clamped, dict_clamped);
      (text_worded, {[ "impact_score" := VStr "high" ]}) ].


(** A response labelled without asterisks. *)
Definition response_plain : string := "Root Cause: disk full".

(** A response without any label. *)
Definition response_unlabelled : string :=
  "The disk is full." +:+ nl +:+ nl +:+ "  Database, cache " +:+ nl +:+ nl +:+ nl +:+ nl
  +:+ "Free some space.".

(** A response with three labelled sections and no Prevention section. *)
Definition response_three : string :=
  "**Root Cause:** disk full" +:+ nl +:+ nl
  +:+ "**Affected Components:** db" +:+ nl
  +:+ "**Recommended Fix:** restart".



Fixpoint repeat_string (n : nat) (s : string) : string :=
  match n with
  | O => ""
  | S n' => s +:+ repeat_string n' s
  end.

(** A log of 600 characters. *)
Definition long_log : string := repeat_string 60 "0123456789".


Definition text_prose : string := "the system is critical and unrecoverable".

(** A response in capitals, with two keywords. *)
Definition text_capitals : string := "Impact is HIGH, likelihood Low".

(** A decoded object that validation has nothing to correct in. *)
Definition dict_valid : gmap string value :=
  {[ "severity" := VStr "High"; "impact_score" := VInt 7 ]}.

(** A response with text around its object. *)
Definition text_wrapped : string := "Result: " +:+ text_high +:+ " (done)".

(** A bug of a batch, with a key of its own. *)
Definition bug_order : gmap string value :=
  {[ "id" := VInt 2;
     "error_message" := VStr "AssertionError: assert 500 == 200";
     "test_context" := VStr "test_create_order";
     "endpoint" := VStr "/api/orders" ]}.

(** A bug without its endpoint. *)
Definition bug_no_endpoint : gmap string value :=
  {[ "error_message" := VStr "timeout" ]}.

(** A log entry of a batch. *)
Definition log_order : gmap string value :=
  {[ "error_log" := VStr "Traceback (most recent call last)";
     "service_name" := VStr "orders" ]}.

End samples.

(** * The vocabulary of the statements *)

(** ** About the bug classifier *)

Module BugClassifierSpec.

Import bug_classifier.

Definition in_range (v : value) : Prop :=
  match number_of v with
  | Some (NInt n) => (0 <= n <= 10)%Z
  | Some (NFloat f) => (0 <=? f)%float = true /\ (f <=? 10)%float = true
  | None => False
  end.

Definition clamped (o o' : option value) : Prop :=
  match o with
  | Some v => exists c, clamp v = Ok c /\ o' = Some c
  | None => o' = None
  end.

#[warnings="-inexact-float"]
Definition weighted_formula (impact frequency recovery : float) : float :=
  (0.5 * impact + 0.3 * frequency + 0.2 * recovery)%float.

Definition is_label (v : option value) : Prop :=
  exists s, v = Some (VStr s) /\ s ∈ ["Critical"; "High"; "Medium"; "Low"].


Definition coerce_severity (d : gmap string value) : gmap string value :=
  if value_in (get d "severity" VNone) valid_severities then d
  else <["severity" := VStr (Severity_value MEDIUM)]> d.

Definition weighted_ok (c : gmap string value) : Prop :=
  exists i f r : float,
    as_float (get c "impact_score" (VInt 5)) = Ok i
    /\ as_float (get c "frequency_score" (VInt 5)) = Ok f
    /\ as_float (get c "recovery_score" (VInt 5)) = Ok r
    /\ c !! "weighted_score" = Some (VFloat (weighted_formula i f r)).

Fixpoint brace_free (s : string) : bool :=
  match s with
  | "" => true
  | String c rest => negb (Re.is_brace c) && brace_free rest
  end.

Definition has_object (s : string) : Prop :=
  exists pre body post,
    s = pre +:+ "{" +:+ body +:+ "}" +:+ post /\ brace_free body = true.

Definition icontains (keyword s : string) : Prop :=
  exists pre mid post, s = pre +:+ mid +:+ post /\ lower mid = keyword.

(** The capital of a small letter of the ASCII alphabet: the character 32
    code points below it. *)
Definition capital (k : ascii) : ascii := ascii_of_N (N_of_ascii k - 32).

(** The small letters [a] to [z]. *)
Definition small_letter (k : ascii) : bool :=
  ((97 <=? N_of_ascii k) && (N_of_ascii k <=? 122))%N.

Fixpoint small_letters (keyword : string) : bool :=
  match keyword with
  | "" => true
  | String k keyword' => small_letter k && small_letters keyword'
  end.

(** [text] spells [keyword] letter by letter, each letter small or
    capital. *)
Fixpoint spells (keyword text : string) : Prop :=
  match keyword, text with
  | "", "" => True
  | String k keyword', String c text' => (c = k \/ c = capital k) /\ spells keyword' text'
  | _, _ => False
  end.

(** [keyword] occurs in [s] in some mix of small and capital letters. *)
Definition occurs_ignoring_case (keyword s : string) : Prop :=
  exists pre mid post, s = pre +:+ mid +:+ post /\ spells keyword mid.

Definition unstructured_result (severity : string) : gmap string value :=
  {[ "severity" := VStr severity;
     "impact_score" := VInt 5;
     "frequency_score" := VInt 5;
     "recovery_score" := VInt 5;
     "weighted_score" := VFloat 5;
     "reasoning" := VStr "Parsed from unstructured response" ]}.


Definition component (d c : gmap string value) (k : string) (x : float) : Prop :=
  match d !! k with
  | None => x = 5%float
  | Some _ => exists v, c !! k = Some v /\ as_float v = Ok x
  end.

Definition is_severity (s : string) (item : history_item) : bool :=
  match classification item !! "severity" with
  | Some (VStr s') => String.eqb s s'
  | _ => false
  end.

Definition occurrences (s : string) (history : list history_item) : Z :=
  Z.of_nat (length (List.filter (is_severity s) history)).

Definition frequency_table (history : list history_item) (table : gmap string Z) : Prop :=
  forall s,
    table !! s =
    if (occurrences s history =? 0)%Z then None else Some (occurrences s history).

Definition weights (history : list history_item) (ws : list float) : Prop :=
  Forall2 (fun item w => classification item !! "weighted_score" = Some (VFloat w))
    history ws.

Definition float_sum (ws : list float) : float := fold_left PrimFloat.add ws 0%float.

Definition item_ok (item : history_item) : Prop :=
  (exists s, classification item !! "severity" = Some (VStr s))
  /\ (exists w, classification item !! "weighted_score" = Some (VFloat w)).

Definition clamped_result : gmap string value :=
  {[ "severity" := VStr "High"; "impact_score" := VInt 9;
     "frequency_score" := VInt 10; "recovery_score" := VInt 0;
     "weighted_score" := VFloat 7.5 ]}.

Definition after_clamped : BugClassifier :=
  snd (classify (samples.canned samples.text_clamped) samples.sample_loads
         (init []) "AssertionError" "checkout" "/api/orders").

Definition coerced_result : gmap string value :=
  {[ "severity" := VStr "Medium"; "weighted_score" := VFloat 5 ]}.

Definition high_result : gmap string value :=
  {[ "severity" := VStr "High"; "weighted_score" := VFloat 5 ]}.

Definition after_high : BugClassifier :=
  snd (classify (samples.canned samples.text_high) samples.sample_loads
         (init []) "AssertionError" "checkout" "/api/orders").

(** A sub-score that the clamp leaves as it is: an int from 0 to 10, a
    float strictly between 0 and 10, or [True]. *)
Definition kept (v : value) : Prop :=
  match v with
  | VInt n => (0 <= n <= 10)%Z
  | VFloat f => (0 <? f)%float = true /\ (f <? 10)%float = true
  | VBool b => b = true
  | _ => False
  end.

(** What validation establishes of a classification. *)
Definition entry_valid (c : gmap string value) : Prop :=
  is_label (c !! "severity")
  /\ (forall k v, k ∈ score_keys -> c !! k = Some v -> in_range v)
  /\ exists w, c !! "weighted_score" = Some (VFloat w).

(** Some sub-score that is present is not a number. *)
Definition worded_score (d : gmap string value) : Prop :=
  exists k v, k ∈ score_keys /\ d !! k = Some v /\ number_of v = None.

(** The severity of an entry of the history is one of the four labels. *)
Definition labelled (item : history_item) : Prop :=
  is_label (classification item !! "severity").

(** The three arguments that a bug gives to [classify] are strings. *)
Definition str_fields (bug : gmap string value) : Prop :=
  forall k v,
    k ∈ ["error_message"; "test_context"; "endpoint"] -> bug !! k = Some v ->
    exists s, v = VStr s.

(** The sub-scores that are present are ints. *)
Definition int_scores (d : gmap string value) : Prop :=
  forall k v, k ∈ score_keys -> d !! k = Some v -> exists n, v = VInt n.

(** The ints from 0 to 10. *)
Definition score_range : list Z := map Z.of_nat (seq 0 11).

(** The weighted sum of three ints is a float from 0 to 10. *)
Definition weighted_within (a b c : Z) : bool :=
  match float_of_int a, float_of_int b, float_of_int c with
  | Ok i, Ok f, Ok r =>
      ((0 <=? weighted_formula i f r) && (weighted_formula i f r <=? 10))%float
  | _, _, _ => false
  end.

Definition stats_after_clamped : statistics :=
  {| total_classifications := 1;
     severity_distribution := {[ "High" := 1%Z ]};
     average_weighted_score := 7.5 |}.

Definition batch_run : result (list batch_result) * BugClassifier :=
  classify_batch (samples.canned samples.text_high) samples.sample_loads
    (init ([] : list string)) [samples.bug_order].

Definition batch_failed : result (list batch_result) * BugClassifier :=
  classify_batch (samples.canned samples.text_high) samples.sample_loads
    (init ([] : list string)) [samples.bug_order; samples.bug_no_endpoint].

End BugClassifierSpec.

(** ** About the log interpreter *)

Module LogInterpreterSpec.

Import log_interpreter.

Definition root_pattern : string := "\*\*Root Cause:\*\*\s*(.*?)(?=\*\*|$)".

(** The text of a section found under its asterisk label, if any. *)
Definition bold_group (label response : string) : option string :=
  Re.search_section ("**" +:+ label +:+ "**") Re.look_bold response.

(** Whether the plain label occurs. *)
Definition plain_group (label response : string) : option string :=
  Re.search_section label Re.look_plain response.

Definition bold_field (label response : string) : string :=
  match bold_group label response with
  | Some group => strip group
  | None => ""
  end.

Definition paragraphs (response : string) : list string :=
  map strip
    (List.filter (fun p => negb (String.eqb (strip p) "")) (split_blank response)).





Definition interpreted_long : result interpretation * LogInterpreter :=
  interpret (samples.canned samples.response_three) (init []) samples.long_log "orders".

(** The keys of the dict that [_parse_interpretation] returns. *)
Definition parsed_keys : list string :=
  ["root_cause"; "affected_components"; "recommended_fix"; "prevention"; "raw_response"].

(** A log entry with its two keys, both strings. *)
Definition well_formed_entry (log_entry : gmap string value) : Prop :=
  exists error_log service_name,
    log_entry !! "error_log" = Some (VStr error_log)
    /\ log_entry !! "service_name" = Some (VStr service_name).

Definition interpreted : result interpretation * LogInterpreter :=
  interpret (samples.canned samples.response_three) (init ([] : list string))
    "Traceback (most recent call last)" "orders".

(** What [interpreted] returns. *)
Definition interpretation_three : interpretation :=
  match fst interpreted with
  | Ok interp => interp
  | Raise _ => ∅
  end.

Definition batch_interpreted : result (list batch_result) * LogInterpreter :=
  interpret_batch (samples.canned samples.response_three) (init ([] : list string))
    [samples.log_order].

End LogInterpreterSpec.

(** ** About the counts of the experiment *)

Module ExperimentSpec.

(** The number of compared pairs that satisfy a test. *)
Definition pairs_where (test : string * string -> bool)
    (predictions ground_truth : list string) : Z :=
  Z.of_nat (length (List.filter test (combine predictions ground_truth))).

Definition indicator (b : bool) : Z := if b then 1%Z else 0%Z.

End ExperimentSpec.

(** * Proofs *)

(** ** Python's [float(n)] on the ints of the model *)

Module FloatFacts.

Local Open Scope Z_scope.

Lemma digits2_pos_bound p : forall n, 0 <= n -> Zpos p < 2 ^ n -> Zpos (digits2_pos p) <= n.
Proof.
  induction p as [q IH | q IH |]; intros n Hn Hp.
  - assert (n <> 0) by (intros ->; change (2 ^ 0) with 1 in Hp; lia).
    replace n with (Z.succ (n - 1)) in Hp by lia. rewrite Z.pow_succ_r in Hp by lia.
    specialize (IH (n - 1) ltac:(lia) ltac:(lia)).
    cbn [digits2_pos]. lia.
  - assert (n <> 0) by (intros ->; change (2 ^ 0) with 1 in Hp; lia).
    replace n with (Z.succ (n - 1)) in Hp by lia. rewrite Z.pow_succ_r in Hp by lia.
    specialize (IH (n - 1) ltac:(lia) ltac:(lia)).
    cbn [digits2_pos]. lia.
  - assert (n <> 0) by (intros ->; change (2 ^ 0) with 1 in Hp; lia).
    cbn [digits2_pos]. lia.
Qed.

Lemma digits2_pos_iter p k :
  Zpos (digits2_pos (Pos.iter xO p k)) = Zpos (digits2_pos p) + Zpos k.
Proof.
  induction k as [|k IH] using Pos.peano_ind.
  - cbn [Pos.iter digits2_pos]. lia.
  - rewrite Pos.iter_succ. cbn [digits2_pos]. lia.
Qed.

Lemma binary_round_small p :
  Zpos p < 2 ^ 53 ->
  exists m e, binary_round prec emax false p 0 = S754_finite false m e.
Proof.
  intros Hp.
  pose proof (digits2_pos_bound p 53 ltac:(lia) Hp) as Hd.
  assert (0 < Zpos (digits2_pos p)) as Hd0 by lia.
  unfold binary_round.
  set (d := Zpos (digits2_pos p)) in *.
  assert (fexp prec emax (d + 0) = d - 53) as Hfexp.
  { unfold fexp, emin, prec, emax. lia. }
  rewrite Hfexp.
  assert (exists mz ez, shl_align p 0 (d - 53) = (mz, ez)
                        /\ Zpos (digits2_pos mz) + ez = d /\ ez = d - 53) as (mz & ez & -> & Hmz & Hez).
  { unfold shl_align. destruct (d - 53 - 0) as [|k|k] eqn:E; [| lia |].
    - exists p, 0. fold d. split; [reflexivity | lia].
    - exists (Pos.iter xO p k), (d - 53). rewrite digits2_pos_iter. fold d. split; [reflexivity | lia]. }
  unfold binary_round_aux.
  assert (shr_fexp prec emax (Zpos mz) ez loc_Exact
          = ({| shr_m := Zpos mz; shr_r := false; shr_s := false |}, ez)) as Hshr.
  { unfold shr_fexp. cbn [Zdigits2]. rewrite Hmz.
    replace (fexp prec emax d - ez) with 0; [reflexivity|].
    unfold fexp, emin, prec, emax. lia. }
  rewrite Hshr. cbn [shr_m loc_of_shr_record round_nearest_even]. rewrite Hshr. cbn [shr_m].
  replace (ez <=? emax - prec) with true; [eauto|].
  symmetry. apply Z.leb_le. unfold emax, prec. lia.
Qed.

Lemma float_of_int_total n : 0 <= n < 2 ^ 53 -> exists x, float_of_int n = Ok x.
Proof.
  intros [H0 Hn]. unfold float_of_int. destruct n as [|p|p]; [| |lia].
  - eexists. reflexivity.
  - cbn [binary_normalize]. destruct (binary_round_small p Hn) as (m & e & ->). eauto.
Qed.

End FloatFacts.

(** ** Strings *)

Module StringFacts.

Lemma append_cons c (s t : string) : String c s +:+ t = String c (s +:+ t).
Proof. reflexivity. Qed.

Lemma append_nil (t : string) : "" +:+ t = t.
Proof. reflexivity. Qed.

Lemma append_assoc (a b c : string) : (a +:+ b) +:+ c = a +:+ (b +:+ c).
Proof.
  induction a as [|x a IH]; [reflexivity|]. now rewrite !append_cons, IH.
Qed.

Lemma embedded (a s b c : string) :
  exists before after, forall log,
    a +:+ s +:+ b +:+ log +:+ c = before +:+ log +:+ after.
Proof.
  exists (a +:+ s +:+ b), c. intros log. now rewrite !append_assoc.
Qed.

Lemma prefix_iff (p s : string) :
  String.prefix p s = true <-> exists post, s = p +:+ post.
Proof.
  revert s. induction p as [|a p IH]; intros s.
  - split; [intros _; now exists s | intros _; destruct s; reflexivity].
  - destruct s as [|b s]; simpl.
    + split; [discriminate | intros (post & [=])].
    + setoid_rewrite append_cons. destruct (ascii_dec a b) as [-> | Hne].
      * rewrite IH. split; intros (post & H); exists post; congruence.
      * split; [discriminate | intros (post & [= ? ?]); congruence].
Qed.

Lemma contains_iff (needle hay : string) :
  contains needle hay = true <-> exists pre post, hay = pre +:+ needle +:+ post.
Proof.
  induction hay as [|c hay IH].
  - cbn [contains]. rewrite orb_false_r, prefix_iff. split.
    + intros (post & H). now exists "", post.
    + intros (pre & post & H). destruct pre; [now exists post | discriminate].
  - cbn [contains]. rewrite orb_true_iff, prefix_iff, IH. split.
    + intros [(post & H) | (pre & post & H)].
      * now exists "", post.
      * exists (String c pre), post. now rewrite append_cons, H.
    + intros (pre & post & H). destruct pre as [|x pre].
      * left. now exists post.
      * right. rewrite append_cons in H. injection H as -> ->. now exists pre, post.
Qed.

Lemma lower_app (a b : string) : lower (a +:+ b) = lower a +:+ lower b.
Proof.
  induction a as [|x a IH]; [reflexivity|].
  rewrite append_cons. cbn [lower]. now rewrite append_cons, IH.
Qed.

Lemma lower_app_inv (s a b : string) :
  lower s = a +:+ b -> exists s1 s2, s = s1 +:+ s2 /\ lower s1 = a /\ lower s2 = b.
Proof.
  revert s. induction a as [|x a IH]; intros s H.
  - now exists "", s.
  - destruct s as [|c s]; [discriminate|]. rewrite append_cons in H. cbn [lower] in H.
    injection H as Hc Hs.
    destruct (IH _ Hs) as (s1 & s2 & -> & <- & <-).
    exists (String c s1), s2. cbn [lower]. now rewrite Hc.
Qed.

Lemma take_prefix n s : exists rest, s = take n s +:+ rest.
Proof.
  revert s. induction n as [|n IH]; intros s; [now exists s|].
  destruct s as [|c s]; [now exists ""|].
  destruct (IH s) as [rest Hrest]. exists rest. cbn [take].
  now rewrite append_cons, <- Hrest.
Qed.

Lemma take_length n s : String.length (take n s) = Nat.min n (String.length s).
Proof.
  revert s. induction n as [|n IH]; intros s; [reflexivity|].
  destruct s as [|c s]; [reflexivity|]. cbn [take String.length Nat.min]. now rewrite IH.
Qed.

Lemma take_all n s : String.length s <= n -> take n s = s.
Proof.
  revert s. induction n as [|n IH]; intros s Hlen.
  - destruct s; [reflexivity | cbn in Hlen; lia].
  - destruct s as [|c s]; [reflexivity|]. cbn [take]. rewrite IH; [reflexivity|].
    cbn in Hlen. lia.
Qed.




Lemma strip_empty : strip "" = "".
Proof. reflexivity. Qed.

Lemma append_length (a b : string) :
  String.length (a +:+ b) = String.length a + String.length b.
Proof. induction a as [|c a IH]; [reflexivity|]. rewrite append_cons. cbn. now rewrite IH. Qed.

Lemma prefix_drop (sep s : string) :
  String.prefix sep s = true -> s = sep +:+ Re.drop (String.length sep) s.
Proof.
  intros (post & ->)%prefix_iff. f_equal.
  induction sep as [|c sep IH]; [now destruct post|].
  rewrite append_cons. cbn [String.length Re.drop]. exact IH.
Qed.

Lemma lstrip_suffix s : exists space, s = space +:+ lstrip s.
Proof.
  induction s as [|c s (space & IH)]; [now exists ""|]. cbn [lstrip].
  destruct (isspace c); [|now exists ""].
  exists (String c space). now rewrite append_cons, <- IH.
Qed.

Lemma rstrip_prefix s : exists space, s = rstrip s +:+ space.
Proof.
  induction s as [|c s (space & IH)]; [now exists ""|]. cbn [rstrip].
  destruct (rstrip s) as [|k kept] eqn:E.
  - destruct (isspace c).
    + exists (String c s). reflexivity.
    + exists s. reflexivity.
  - exists space. rewrite append_cons. now f_equal.
Qed.

Lemma strip_within s : exists before after, s = before +:+ strip s +:+ after.
Proof.
  unfold strip. destruct (lstrip_suffix s) as (before & Hb).
  destruct (rstrip_prefix (lstrip s)) as (after & Ha).
  exists before, after. now rewrite <- Ha.
Qed.

Lemma contains_within (needle s before after : string) :
  contains needle s = true -> contains needle (before +:+ s +:+ after) = true.
Proof.
  intros (pre & post & ->)%contains_iff. apply contains_iff.
  exists (before +:+ pre), (post +:+ after). now rewrite !append_assoc.
Qed.

Lemma rstrip_fixed s : rstrip (rstrip s) = rstrip s.
Proof.
  induction s as [|c s IH]; [reflexivity|]. cbn [rstrip].
  destruct (rstrip s) as [|k kept] eqn:E.
  - destruct (isspace c) eqn:Ec; [reflexivity|]. cbn [rstrip]. now rewrite Ec.
  - cbn [rstrip]. cbn [rstrip] in IH. 
    destruct (match rstrip kept with
              | "" => if isspace k then "" else String k ""
              | String a s0 => String k (String a s0)
              end) eqn:E'; [discriminate|]. now rewrite IH.
Qed.

Lemma lstrip_rstrip s : lstrip (rstrip (lstrip s)) = rstrip (lstrip s).
Proof.
  assert (forall t, lstrip t = t -> lstrip (rstrip t) = rstrip t) as H.
  { intros [|c t]; [reflexivity|]. cbn [lstrip]. destruct (isspace c) eqn:Ec.
    - intros Heq. exfalso. destruct (lstrip_suffix t) as (space & Ht).
      apply (f_equal String.length) in Heq. apply (f_equal String.length) in Ht.
      rewrite append_length in Ht. cbn [String.length] in Heq. lia.
    - intros _. cbn [rstrip]. destruct (rstrip t); rewrite ?Ec; cbn [lstrip]; now rewrite Ec. }
  apply H. induction s as [|c s IH]; [reflexivity|]. cbn [lstrip].
  destruct (isspace c) eqn:Ec; [exact IH|]. cbn [lstrip]. now rewrite Ec.
Qed.

Lemma strip_fixed s : strip (strip s) = strip s.
Proof. unfold strip. now rewrite lstrip_rstrip, rstrip_fixed. Qed.

End StringFacts.

(** ** The bug classifier *)

Module BugClassifierProofs.

Import bug_classifier BugClassifierSpec FloatFacts StringFacts.

Lemma ltb_leb (x y : float) : (x <? y)%float = true -> (x <=? y)%float = true.
Proof.
  rewrite ltb_spec, leb_spec. unfold SFltb, SFleb.
  destruct (SFcompare _ _) as [[]|]; congruence.
Qed.

Lemma float_of_small_int_10 : float_of_small_int 10 = 10%float.
Proof. reflexivity. Qed.

Lemma float_of_small_int_0 : float_of_small_int 0 = 0%float.
Proof. reflexivity. Qed.

Lemma float_lt_int_10 f : float_lt_int f 10 = (f <? 10)%float.
Proof. reflexivity. Qed.

Lemma float_gt_int_0 f : float_gt_int f 0 = (0 <? f)%float.
Proof. reflexivity. Qed.

Lemma Prim2SF_10 : Prim2SF 10 = S754_finite false 5629499534213120 (-49).
Proof. reflexivity. Qed.

Lemma Prim2SF_0 : Prim2SF 0 = S754_zero false.
Proof. reflexivity. Qed.

Lemma float_neg_lt_10 f :
  (f <? 0)%float = true -> (f <? 10)%float = true /\ (0 <? f)%float = false.
Proof.
  rewrite (ltb_spec f 0), (ltb_spec f 10), (ltb_spec 0 f), Prim2SF_10, Prim2SF_0.
  unfold SFltb.
  destruct (Prim2SF f) as [[]| [] | | [] m e]; cbv beta iota delta [SFcompare];
    try discriminate; auto.
Qed.

Lemma SFcompare_Lt_flip x y : SFcompare x y = Some Lt -> SFcompare y x = Some Gt.
Proof.
  destruct x as [[]|[]| |[] m1 e1], y as [[]|[]| |[] m2 e2];
    cbv beta iota delta [SFcompare]; try discriminate; auto;
    change (Pos.compare_cont Eq m1 m2) with (Pos.compare m1 m2);
    change (Pos.compare_cont Eq m2 m1) with (Pos.compare m2 m1);
    rewrite (Z.compare_antisym e1 e2), (Pos.compare_antisym m1 m2);
    destruct (e1 ?= e2)%Z, (m1 ?= m2)%positive;
    cbv beta iota delta [CompOpp]; try discriminate; auto.
Qed.

Lemma float_gt_10 f : (10 <? f)%float = true -> (f <? 10)%float = false.
Proof.
  rewrite (ltb_spec 10 f), (ltb_spec f 10). unfold SFltb.
  destruct (SFcompare (Prim2SF 10) (Prim2SF f)) as [[]|] eqn:E; try discriminate.
  intros _. now rewrite (SFcompare_Lt_flip _ _ E).
Qed.

Lemma clamp_int n :
  clamp (VInt n) = Ok (VInt (if (n <? 10)%Z then (if (0 <? n)%Z then n else 0) else 10)).
Proof.
  cbv [clamp py_min py_max py_lt py_gt number_of bind].
  destruct (n <? 10)%Z eqn:E10; [destruct (0 <? n)%Z eqn:E0|]; try reflexivity.
Qed.

Lemma clamp_bool b : clamp (VBool b) = Ok (if b then VBool true else VInt 0).
Proof. destruct b; reflexivity. Qed.

Lemma clamp_float f :
  clamp (VFloat f) =
  Ok (if (f <? 10)%float then (if (0 <? f)%float then VFloat f else VInt 0) else VInt 10).
Proof.
  cbv [clamp py_min py_max py_lt py_gt number_of bind].
  rewrite float_lt_int_10.
  destruct (f <? 10)%float; [|reflexivity].
  cbv [number_of]. rewrite float_gt_int_0.
  destruct (0 <? f)%float; reflexivity.
Qed.

Lemma clamp_not_number v : number_of v = None -> clamp v = Raise TypeError.
Proof. intros H. cbv [clamp py_min py_lt bind]. now rewrite H. Qed.

Lemma clamp_in_range v c : clamp v = Ok c -> in_range c.
Proof.
  destruct v as [ | b | n | f | s | l | l ]; try discriminate.
  - rewrite clamp_bool. intros [= <-]. destruct b; cbv [in_range number_of Z.b2z]; lia.
  - rewrite clamp_int. intros [= <-]. cbv [in_range number_of].
    destruct (n <? 10)%Z eqn:E10; [destruct (0 <? n)%Z eqn:E0|]; lia.
  - rewrite clamp_float. intros [= <-].
    destruct (f <? 10)%float eqn:E10; [destruct (0 <? f)%float eqn:E0|].
    + cbv [in_range number_of]. auto using ltb_leb.
    + cbv [in_range number_of]. lia.
    + cbv [in_range number_of]. lia.
Qed.


Lemma bind_ok {A B} (m : result A) (k : A -> result B) b :
  (let* x := m in k x) = Ok b -> exists a, m = Ok a /\ k a = Ok b.
Proof. destruct m as [a|e]; [eauto | discriminate]. Qed.

Lemma float_of_int_small n : (0 <= n <= 10)%Z -> exists x, float_of_int n = Ok x.
Proof.
  intros H. apply float_of_int_total. split; [lia|].
  apply Z.le_lt_trans with 10%Z; [lia | reflexivity].
Qed.

Lemma as_float_in_range v : in_range v -> exists x, as_float v = Ok x.
Proof.
  unfold in_range, as_float. destruct (number_of v) as [[n|f]|]; [ | eauto | tauto].
  apply float_of_int_small.
Qed.

Lemma clamp_score_lookup (d d' : gmap string value) k :
  clamp_score d k = Ok d' ->
  clamped (d !! k) (d' !! k) /\ forall k', k' <> k -> d' !! k' = d !! k'.
Proof.
  unfold clamp_score, clamped. destruct (d !! k) as [v|] eqn:E.
  - intros H. apply bind_ok in H as (c & Hc & [= <-]). split.
    + exists c. split; [assumption | apply lookup_insert_eq].
    + intros k' Hk'. apply lookup_insert_ne. congruence.
  - intros [= <-]. rewrite E. auto.
Qed.

Lemma clamp_scores_lookup keys : forall (d d' : gmap string value),
  NoDup keys -> clamp_scores keys d = Ok d' ->
  (forall k, k ∈ keys -> clamped (d !! k) (d' !! k))
  /\ (forall k, k ∉ keys -> d' !! k = d !! k).
Proof.
  induction keys as [|key keys IH]; intros d d' Hnd H.
  - injection H as <-. split; [intros k Hk; now apply elem_of_nil in Hk | reflexivity].
  - cbn [clamp_scores] in H. apply bind_ok in H as (d1 & H1 & H2).
    apply NoDup_cons in Hnd as [Hnotin Hnd].
    destruct (clamp_score_lookup _ _ _ H1) as [Hkey Hother].
    destruct (IH _ _ Hnd H2) as [Hin Hout]. split.
    + intros k [-> | Hk]%elem_of_cons.
      * rewrite (Hout key Hnotin). exact Hkey.
      * rewrite <- (Hother k) by (intros ->; contradiction). auto.
    + intros k [Hne Hk]%not_elem_of_cons. rewrite Hout by assumption.
      now apply Hother.
Qed.

Lemma score_keys_NoDup : NoDup score_keys.
Proof.
  unfold score_keys.
  repeat (apply NoDup_cons; split;
          [rewrite ?elem_of_cons, elem_of_nil; intros H; intuition discriminate|]).
  apply NoDup_nil_2.
Qed.


Lemma value_in_label (d : gmap string value) :
  value_in (get d "severity" VNone) valid_severities = true <-> is_label (d !! "severity").
Proof.
  unfold get, is_label. destruct (d !! "severity") as [v|].
  - destruct v as [ | b | n | f | s | l | l ]; cbn [value_in];
      try (split; [discriminate | intros (s' & [= ] & _)]).
    split.
    + intros H. exists s. split; [reflexivity|].
      apply existsb_exists in H as (x & Hx & ->%String.eqb_eq).
      now apply list_elem_of_In.
    + intros (s' & [= <-] & Hs). apply existsb_exists. exists s.
      split; [now apply list_elem_of_In | apply String.eqb_refl].
  - cbn [value_in]. split; [discriminate | intros (s' & [= ] & _)].
Qed.

Lemma score_key_cases k :
  k ∈ score_keys -> k = "impact_score" \/ k = "frequency_score" \/ k = "recovery_score".
Proof.
  unfold score_keys. rewrite !elem_of_cons, elem_of_nil. tauto.
Qed.

Lemma score_key_not_severity k : k ∈ score_keys -> k <> "severity" /\ k <> "weighted_score".
Proof. intros [-> | [-> | ->]]%score_key_cases; split; discriminate. Qed.

Lemma severity_not_score : "severity" ∉ score_keys.
Proof. intros [H | [H | H]]%score_key_cases; discriminate. Qed.

Lemma weighted_sum_ok (d : gmap string value) w :
  weighted_sum d = Ok w <->
  exists i f r,
    as_float (get d "impact_score" (VInt 5)) = Ok i
    /\ as_float (get d "frequency_score" (VInt 5)) = Ok f
    /\ as_float (get d "recovery_score" (VInt 5)) = Ok r
    /\ w = weighted_formula i f r.
Proof.
  unfold weighted_sum, float_mul. split.
  - intros H.
    apply bind_ok in H as (i' & Hi & H). apply bind_ok in Hi as (i & Hi & [= <-]).
    apply bind_ok in H as (f' & Hf & H). apply bind_ok in Hf as (f & Hf & [= <-]).
    apply bind_ok in H as (r' & Hr & H). apply bind_ok in Hr as (r & Hr & [= <-]).
    injection H as <-. exists i, f, r. auto.
  - intros (i & f & r & -> & -> & -> & ->). reflexivity.
Qed.

Lemma get_in_range (d : gmap string value) k :
  (forall v, d !! k = Some v -> in_range v) -> in_range (get d k (VInt 5)).
Proof.
  unfold get. destruct (d !! k) as [v|]; [auto | intros _; cbv [in_range number_of]; lia].
Qed.

Lemma validate_inv (d c : gmap string value) :
  _validate_classification d = Ok c ->
  exists d' w,
    clamp_scores score_keys (coerce_severity d) = Ok d'
    /\ weighted_sum d' = Ok w
    /\ c = <["weighted_score" := VFloat w]> d'.
Proof.
  unfold _validate_classification. fold (coerce_severity d). intros H.
  apply bind_ok in H as (d' & Hd' & H). apply bind_ok in H as (w & Hw & [= <-]).
  eauto.
Qed.

Lemma clamped_scores_weighted (d d' : gmap string value) :
  clamp_scores score_keys d = Ok d' -> exists w, weighted_sum d' = Ok w.
Proof.
  intros H. destruct (clamp_scores_lookup _ _ _ score_keys_NoDup H) as [Hin _].
  assert (forall k, k ∈ score_keys -> exists x, as_float (get d' k (VInt 5)) = Ok x) as Hx.
  { intros k Hk. apply as_float_in_range, get_in_range. intros v Hv.
    specialize (Hin k Hk). unfold clamped in Hin.
    destruct (d !! k) as [v0|]; [|congruence].
    destruct Hin as (c & Hc & Hc'). rewrite Hc' in Hv. injection Hv as <-.
    eapply clamp_in_range, Hc. }
  destruct (Hx "impact_score") as [i Hi]; [unfold score_keys; set_solver|].
  destruct (Hx "frequency_score") as [f Hf]; [unfold score_keys; set_solver|].
  destruct (Hx "recovery_score") as [r Hr]; [unfold score_keys; set_solver|].
  exists (weighted_formula i f r). apply weighted_sum_ok. eauto 10.
Qed.

Lemma coerce_severity_scores (d : gmap string value) k :
  k ∈ score_keys -> coerce_severity d !! k = d !! k.
Proof.
  intros [Hk _]%score_key_not_severity. unfold coerce_severity.
  destruct (value_in _ _); [reflexivity|]. now apply lookup_insert_ne.
Qed.


Lemma validate_weighted_ok (d c : gmap string value) :
  _validate_classification d = Ok c -> weighted_ok c.
Proof.
  intros (d' & w & _ & Hw & ->)%validate_inv.
  apply weighted_sum_ok in Hw as (i & f & r & Hi & Hf & Hr & ->).
  exists i, f, r. unfold get in *.
  rewrite !lookup_insert_ne by discriminate. rewrite lookup_insert_eq. auto.
Qed.

Lemma validate_score_lookup (d c : gmap string value) k :
  _validate_classification d = Ok c -> k ∈ score_keys -> clamped (d !! k) (c !! k).
Proof.
  intros (d' & w & Hd' & _ & ->)%validate_inv Hk.
  destruct (clamp_scores_lookup _ _ _ score_keys_NoDup Hd') as [Hin _].
  specialize (Hin k Hk). rewrite coerce_severity_scores in Hin by assumption.
  rewrite lookup_insert_ne; [assumption|].
  apply score_key_not_severity in Hk as [_ Hk]. congruence.
Qed.

Lemma validate_severity (d c : gmap string value) :
  _validate_classification d = Ok c ->
  c !! "severity" = coerce_severity d !! "severity".
Proof.
  intros (d' & w & Hd' & _ & ->)%validate_inv.
  destruct (clamp_scores_lookup _ _ _ score_keys_NoDup Hd') as [_ Hout].
  rewrite lookup_insert_ne by discriminate. apply Hout, severity_not_score.
Qed.

(** C3: after [_validate_classification], each of [impact_score],
    [frequency_score] and [recovery_score] that is present in the result
    lies in the interval from 0 to 10, whatever the size or sign of the
    value it had before: an int or a float below 0 has become 0, one above
    10 has become 10. *)
Theorem validate_scores_in_range (d c : gmap string value) (k : string) (v : value) :
  _validate_classification d = Ok c ->
  k ∈ score_keys ->
  c !! k = Some v ->
  in_range v
  /\ (forall n, d !! k = Some (VInt n) -> (n < 0)%Z -> v = VInt 0)
  /\ (forall n, d !! k = Some (VInt n) -> (10 < n)%Z -> v = VInt 10)
  /\ (forall f, d !! k = Some (VFloat f) -> (f <? 0)%float = true -> v = VInt 0)
  /\ (forall f, d !! k = Some (VFloat f) -> (10 <? f)%float = true -> v = VInt 10).
Proof.
  intros Hval Hk Hv. pose proof (validate_score_lookup _ _ _ Hval Hk) as Hc.
  unfold clamped in Hc. destruct (d !! k) as [v0|]; [|congruence].
  destruct Hc as (c0 & Hc0 & Hc0'). rewrite Hc0' in Hv. injection Hv as <-.
  split; [eapply clamp_in_range, Hc0|].
  repeat split.
  - intros n [= ->] Hn. rewrite clamp_int in Hc0. injection Hc0 as <-.
    destruct (n <? 10)%Z eqn:E10; [destruct (0 <? n)%Z eqn:E0|]; f_equal; lia.
  - intros n [= ->] Hn. rewrite clamp_int in Hc0. injection Hc0 as <-.
    destruct (n <? 10)%Z eqn:E10; [destruct (0 <? n)%Z eqn:E0|]; f_equal; lia.
  - intros f [= ->] Hf. rewrite clamp_float in Hc0. injection Hc0 as <-.
    destruct (float_neg_lt_10 f Hf) as [-> ->]. reflexivity.
  - intros f [= ->] Hf. rewrite clamp_float in Hc0. injection Hc0 as <-.
    now rewrite (float_gt_10 f Hf).
Qed.

(** C4: when the severity of a classification is not one of the four
    labels Critical, High, Medium and Low (a missing severity included),
    the severity of the validated result is Medium. *)
Theorem validate_coerces_severity (d c : gmap string value) :
  ~ is_label (d !! "severity") ->
  _validate_classification d = Ok c ->
  c !! "severity" = Some (VStr "Medium").
Proof.
  intros Hbad Hval. rewrite (validate_severity _ _ Hval). unfold coerce_severity.
  destruct (value_in _ _) eqn:E.
  - apply value_in_label in E. contradiction.
  - apply lookup_insert_eq.
Qed.

Lemma validate_keeps_label (d c : gmap string value) :
  is_label (d !! "severity") ->
  _validate_classification d = Ok c ->
  c !! "severity" = d !! "severity".
Proof.
  intros Hgood Hval. rewrite (validate_severity _ _ Hval). unfold coerce_severity.
  apply value_in_label in Hgood. now rewrite Hgood.
Qed.

Lemma contains_lower_iff (keyword s : string) :
  contains keyword (lower s) = true <-> icontains keyword s.
Proof.
  rewrite contains_iff. unfold icontains. split.
  - intros (pre & post & H).
    apply lower_app_inv in H as (s1 & s2 & -> & _ & H).
    apply lower_app_inv in H as (mid & s3 & -> & Hmid & _). eauto.
  - intros (pre & mid & post & -> & <-).
    exists (lower pre), (lower post). now rewrite !lower_app.
Qed.

Lemma ascii_of_N_inj (a b : N) :
  (a < 256)%N -> (b < 256)%N -> ascii_of_N a = ascii_of_N b -> a = b.
Proof.
  intros Ha Hb H. apply (f_equal N_of_ascii) in H.
  now rewrite !N_ascii_embedding in H.
Qed.

Lemma lower_char_small (c k : ascii) :
  small_letter k = true -> (lower_char c = k <-> c = k \/ c = capital k).
Proof.
  pose proof (N_ascii_bounded c) as Hc. pose proof (N_ascii_bounded k) as Hk.
  rewrite <- (ascii_N_embedding c), <- (ascii_N_embedding k).
  revert Hc Hk. generalize (N_of_ascii c) (N_of_ascii k). clear c k. intros n m Hn Hm.
  unfold small_letter, capital, lower_char, isupper.
  rewrite !N_ascii_embedding by assumption.
  intros [Hlo Hhi]%andb_true_iff. apply N.leb_le in Hlo, Hhi.
  destruct ((65 <=? n) && (n <=? 90) || (192 <=? n) && (n <=? 222) && negb (n =? 215))%N
    eqn:E.
  - apply orb_true_iff in E as [[H1 H2]%andb_true_iff | [[H1 H2]%andb_true_iff H3]%andb_true_iff];
      apply N.leb_le in H1, H2.
    + split.
      * intros H%ascii_of_N_inj; [|lia|lia]. right. f_equal. lia.
      * intros [H%ascii_of_N_inj | H%ascii_of_N_inj]; try lia. f_equal. lia.
    + split.
      * intros H%ascii_of_N_inj; lia.
      * intros [H%ascii_of_N_inj | H%ascii_of_N_inj]; lia.
  - apply orb_false_iff in E as [E1 E2]. split.
    + auto.
    + intros [H | H%ascii_of_N_inj]; [assumption | | lia | lia].
      exfalso. apply andb_false_iff in E1 as [E1 | E1]; apply N.leb_gt in E1; lia.
Qed.

Lemma lower_spells (keyword : string) : small_letters keyword = true ->
  forall mid, lower mid = keyword <-> spells keyword mid.
Proof.
  induction keyword as [|k keyword IH]; cbn [small_letters]; intros Hsmall mid.
  - destruct mid; cbn [lower spells]; split; (reflexivity || discriminate || tauto).
  - apply andb_true_iff in Hsmall as [Hk Hsmall].
    destruct mid as [|c mid]; cbn [lower spells]; [split; [discriminate | tauto]|].
    rewrite <- (IH Hsmall mid), <- (lower_char_small c k Hk).
    split; [intros [= -> ->]; auto | intros [-> ->]; reflexivity].
Qed.

Lemma icontains_occurs (keyword s : string) :
  small_letters keyword = true -> (icontains keyword s <-> occurs_ignoring_case keyword s).
Proof.
  intros Hsmall. unfold icontains, occurs_ignoring_case.
  split; intros (pre & mid & post & Hs & Hmid); exists pre, mid, post;
    (split; [assumption|]); now apply (lower_spells keyword Hsmall).
Qed.

Lemma span_nobrace_spec (s : string) :
  let (body, tail) := Re.span_nobrace s in
  s = body +:+ tail /\ brace_free body = true
  /\ match tail with String c _ => Re.is_brace c = true | "" => True end.
Proof.
  induction s as [|c s IH]; cbn [Re.span_nobrace].
  - auto.
  - destruct (Re.is_brace c) eqn:E.
    + rewrite append_nil. auto.
    + destruct (Re.span_nobrace s) as [body tail]. destruct IH as (-> & Hb & Ht).
      rewrite append_cons. cbn [brace_free]. rewrite E, Hb. auto.
Qed.

Lemma span_nobrace_app (body tail : string) c :
  brace_free body = true -> Re.is_brace c = true ->
  Re.span_nobrace (body +:+ String c tail) = (body, String c tail).
Proof.
  intros Hb Hc. induction body as [|x body IH].
  - rewrite append_nil. cbn [Re.span_nobrace]. now rewrite Hc.
  - cbn [brace_free] in Hb. apply andb_true_iff in Hb as [Hx Hb].
    apply negb_true_iff in Hx.
    rewrite append_cons. cbn [Re.span_nobrace]. now rewrite Hx, (IH Hb).
Qed.

Lemma match_object_some (s found : string) :
  Re.match_object s = Some found ->
  exists body post,
    s = "{" +:+ body +:+ "}" +:+ post /\ brace_free body = true
    /\ found = "{" +:+ body +:+ "}".
Proof.
  unfold Re.match_object. destruct s as [|c rest]; [discriminate|].
  destruct (Ascii.eqb c "{") eqn:Ec; [|discriminate]. apply Ascii.eqb_eq in Ec as ->.
  pose proof (span_nobrace_spec rest) as H.
  destruct (Re.span_nobrace rest) as [body tail]. destruct H as (-> & Hb & _).
  destruct tail as [|c' tail]; [discriminate|].
  destruct (Ascii.eqb c' "}") eqn:Ec'; [|discriminate]. apply Ascii.eqb_eq in Ec' as ->.
  intros [= <-]. exists body, tail. auto.
Qed.

Lemma search_object_some (s found : string) :
  Re.search_object s = Some found -> has_object s.
Proof.
  induction s as [|c s IH]; cbn [Re.search_object].
  - discriminate.
  - destruct (Re.match_object (String c s)) as [m|] eqn:E.
    + intros _. apply match_object_some in E as (body & post & -> & Hb & _).
      now exists "", body, post.
    + intros (pre & body & post & -> & Hb)%IH.
      now exists (String c pre), body, post.
Qed.

Lemma search_object_none (s : string) :
  Re.search_object s = None <-> ~ has_object s.
Proof.
  split.
  - intros Hnone (pre & body & post & -> & Hb). revert Hnone.
    induction pre as [|c pre IH].
    + change ("" +:+ "{" +:+ body +:+ "}" +:+ post)
        with (String "{" (body +:+ String "}" post)).
      cbn [Re.search_object Re.match_object].
      replace (Ascii.eqb "{" "{") with true by reflexivity.
      rewrite (span_nobrace_app body post "}" Hb eq_refl).
      replace (Ascii.eqb "}" "}") with true by reflexivity. discriminate.
    + rewrite append_cons. cbn [Re.search_object].
      destruct (Re.match_object _); [discriminate | exact IH].
  - intros Hno. destruct (Re.search_object s) as [found|] eqn:E; [|reflexivity].
    exfalso. eauto using search_object_some.
Qed.

Lemma float_of_int_raise n e : float_of_int n = Raise e -> e = OverflowError.
Proof.
  unfold float_of_int. destruct (binary_normalize prec emax n 0 false); congruence.
Qed.

Lemma as_float_raise v e : as_float v = Raise e -> e = TypeError \/ e = OverflowError.
Proof.
  unfold as_float. destruct (number_of v) as [[n|f]|].
  - intros H%float_of_int_raise. auto.
  - discriminate.
  - intros [= <-]. auto.
Qed.


Lemma weighted_sum_raise (d : gmap string value) e :
  weighted_sum d = Raise e -> e = TypeError \/ e = OverflowError.
Proof.
  unfold weighted_sum, float_mul.
  destruct (as_float (get d "impact_score" (VInt 5))) eqn:E1;
    [|intros [= <-]; eauto using as_float_raise].
  destruct (as_float (get d "frequency_score" (VInt 5))) eqn:E2;
    [|intros [= <-]; eauto using as_float_raise].
  destruct (as_float (get d "recovery_score" (VInt 5))) eqn:E3;
    [|intros [= <-]; eauto using as_float_raise].
  discriminate.
Qed.





Lemma fallback_unstructured response :
  exists severity,
    _fallback_parse response = unstructured_result severity
    /\ (icontains "critical" response -> severity = "Critical")
    /\ (~ icontains "critical" response -> icontains "high" response ->
        severity = "High")
    /\ (~ icontains "critical" response -> ~ icontains "high" response ->
        icontains "low" response -> severity = "Low")
    /\ (~ icontains "critical" response -> ~ icontains "high" response ->
        ~ icontains "low" response -> severity = "Medium").
Proof.
  unfold _fallback_parse.
  destruct (contains "critical" (lower response)) eqn:Ec;
    [|destruct (contains "high" (lower response)) eqn:Eh;
      [|destruct (contains "low" (lower response)) eqn:El]];
    rewrite ?contains_lower_iff in *;
    repeat match goal with
           | H : contains _ _ = false |- _ =>
               apply not_true_iff_false in H; rewrite contains_lower_iff in H
           end;
    eexists; (split; [reflexivity|]); tauto.
Qed.

Lemma validate_unstructured severity :
  severity ∈ ["Critical"; "High"; "Medium"; "Low"] ->
  _validate_classification (unstructured_result severity)
  = Ok (unstructured_result severity).
Proof.
  rewrite !elem_of_cons, elem_of_nil.
  intros [-> | [-> | [-> | [-> | []]]]]; reflexivity.
Qed.

Lemma fallback_severity_label response :
  exists severity,
    _fallback_parse response = unstructured_result severity
    /\ severity ∈ ["Critical"; "High"; "Medium"; "Low"].
Proof.
  unfold _fallback_parse.
  destruct (contains "critical" (lower response));
    [|destruct (contains "high" (lower response));
      [|destruct (contains "low" (lower response))]];
    eexists; (split; [reflexivity|]); cbn [Severity_value];
    rewrite !elem_of_cons; auto.
Qed.

Section ClassifierFacts.

Context {engine : Type}.

Variable generate : engine -> string -> float -> result string * engine.

Variable json_loads : string -> result (gmap string value).

Lemma parse_fallback response :
  Re.search_object response = None ->
  _parse_classification json_loads response = Ok (_fallback_parse response).
Proof.
  intros H. unfold _parse_classification. rewrite H. cbn [bind].
  destruct (fallback_severity_label response) as (severity & -> & _).
  reflexivity.
Qed.


Lemma parse_decoded response js d :
  Re.search_object response = Some js ->
  json_loads js = Ok d ->
  _parse_classification json_loads response =
  if has_key d "weighted_score" then Ok d
  else let* w := weighted_sum d in Ok (<["weighted_score" := VFloat w]> d).
Proof.
  intros H Hjs. unfold _parse_classification. rewrite H, Hjs. cbn [bind].
  destruct (has_key d "weighted_score"); [reflexivity|].
  destruct (weighted_sum d) as [w|e] eqn:E; [reflexivity|]. cbn [bind].
  destruct (weighted_sum_raise _ _ E) as [-> | ->]; reflexivity.
Qed.

Lemma classify_eq self error_message test_context endpoint response llm :
  generate (llm_engine self)
    (PromptTemplates.bug_classification_prompt error_message test_context endpoint)
    temperature = (Ok response, llm) ->
  classify generate json_loads self error_message test_context endpoint =
  match (let* p := _parse_classification json_loads response in _validate_classification p) with
  | Ok c =>
      (Ok c,
       {| llm_engine := llm;
          classification_history :=
            classification_history self
            ++ [{| endpoint := endpoint; classification := c |}] |})
  | Raise e =>
      (Raise e,
       {| llm_engine := llm;
          classification_history := classification_history self |})
  end.
Proof.
  intros H. unfold bug_classifier.classify. rewrite H. reflexivity.
Qed.

Lemma classify_inv self error_message test_context endpoint c self' :
  classify generate json_loads self error_message test_context endpoint = (Ok c, self') ->
  exists response llm p,
    generate (llm_engine self)
      (PromptTemplates.bug_classification_prompt error_message test_context endpoint)
      temperature = (Ok response, llm)
    /\ _parse_classification json_loads response = Ok p
    /\ _validate_classification p = Ok c
    /\ self' =
       {| llm_engine := llm;
          classification_history :=
            classification_history self
            ++ [{| endpoint := endpoint; classification := c |}] |}.
Proof.
  unfold bug_classifier.classify.
  destruct (generate _ _ _) as [[response|e] llm] eqn:G; cbn [bind]; [|discriminate].
  destruct (_parse_classification json_loads response) as [p|e] eqn:P; cbn [bind]; [|discriminate].
  destruct (_validate_classification p) as [c'|e] eqn:V; [|discriminate].
  intros [= <- <-]. exists response, llm, p. auto.
Qed.

Lemma classify_raise_history self error_message test_context endpoint e self' :
  classify generate json_loads self error_message test_context endpoint = (Raise e, self') ->
  classification_history self' = classification_history self.
Proof.
  unfold bug_classifier.classify.
  destruct (generate _ _ _) as [[response|e'] llm]; cbn [bind].
  - destruct (let* classification := _parse_classification json_loads response in
              _validate_classification classification);
      [discriminate | now intros [= _ <-]].
  - now intros [= _ <-].
Qed.

Lemma reachable_history self :
  reachable generate json_loads self ->
  Forall (fun item => exists p, _validate_classification p = Ok (classification item))
    (classification_history self).
Proof.
  induction 1 as [llm | self em tc ep Hreach IH].
  - apply Forall_nil_2.
  - destruct (classify generate json_loads self em tc ep) as [[c|e] self'] eqn:E.
    + apply classify_inv in E as (response & llm & p & _ & _ & Hv & ->).
      cbn [snd classification_history]. apply Forall_app. split; [assumption|].
      apply Forall_cons. split; [|apply Forall_nil_2]. cbn [classification]. eauto.
    + cbn [snd]. now rewrite (classify_raise_history _ _ _ _ _ _ E).
Qed.

Lemma validate_ignores_weighted (d : gmap string value) x :
  _validate_classification (<["weighted_score" := x]> d) = _validate_classification d.
Proof.
  assert (forall keys (m : gmap string value), "weighted_score" ∉ keys ->
            clamp_scores keys (<["weighted_score" := x]> m)
            = let* m' := clamp_scores keys m in Ok (<["weighted_score" := x]> m'))
    as Hclamp.
  { induction keys as [|key keys IH]; intros m Hk; [reflexivity|].
    apply not_elem_of_cons in Hk as [Hne Hk]. cbn [clamp_scores].
    unfold clamp_score. rewrite lookup_insert_ne by congruence.
    destruct (m !! key) as [v|]; cbn [bind]; [|now apply IH].
    destruct (clamp v) as [c|e]; cbn [bind]; [|reflexivity].
    rewrite insert_insert_ne by congruence. now apply IH. }
  unfold _validate_classification.
  assert (get (<["weighted_score" := x]> d) "severity" VNone = get d "severity" VNone)
    as -> by (unfold get; now rewrite lookup_insert_ne).
  destruct (value_in _ _).
  - rewrite Hclamp by (intros [H | [H | H]]%score_key_cases; discriminate).
    destruct (clamp_scores score_keys d) as [d'|e]; cbn [bind]; [|reflexivity].
    assert (weighted_sum (<["weighted_score" := x]> d') = weighted_sum d') as ->.
    { unfold weighted_sum, get. now rewrite !lookup_insert_ne by discriminate. }
    destruct (weighted_sum d'); cbn [bind]; [|reflexivity].
    now rewrite insert_insert_eq.
  - rewrite insert_insert_ne by discriminate.
    rewrite Hclamp by (intros [H | [H | H]]%score_key_cases; discriminate).
    destruct (clamp_scores score_keys _) as [d'|e]; cbn [bind]; [|reflexivity].
    assert (weighted_sum (<["weighted_score" := x]> d') = weighted_sum d') as ->.
    { unfold weighted_sum, get. now rewrite !lookup_insert_ne by discriminate. }
    destruct (weighted_sum d'); cbn [bind]; [|reflexivity].
    now rewrite insert_insert_eq.
Qed.

(** C1: in every result that [classify] returns, and in every entry of
    [classification_history] after the call, [weighted_score] is
    0.5 * impact + 0.3 * frequency + 0.2 * recovery over the final
    sub-scores of that result (5 standing in for an absent one); and
    validation gives the same result whatever [weighted_score] its
    argument carried, so a value supplied by the response is overridden. *)
Theorem classify_weighted_score self error_message test_context endpoint c self' :
  reachable generate json_loads self ->
  classify generate json_loads self error_message test_context endpoint = (Ok c, self') ->
  weighted_ok c
  /\ Forall (fun item => weighted_ok (classification item))
       (classification_history self')
  /\ (forall p x,
        _validate_classification (<["weighted_score" := x]> p)
        = _validate_classification p).
Proof.
  intros Hreach Hc.
  pose proof (reachable_classify generate json_loads self error_message test_context
                endpoint Hreach) as Hreach'.
  rewrite Hc in Hreach'. cbn [snd] in Hreach'.
  apply classify_inv in Hc as (response & llm & p & _ & _ & Hv & ->).
  split; [eauto using validate_weighted_ok|]. split.
  - eapply Forall_impl; [apply (reachable_history _ Hreach')|].
    intros item (p' & Hp'). eauto using validate_weighted_ok.
  - intros p' x. apply validate_ignores_weighted.
Qed.


Lemma run_fallback response :
  Re.search_object response = None ->
  (let* p := _parse_classification json_loads response in _validate_classification p)
  = Ok (_fallback_parse response).
Proof.
  intros Hs. rewrite (parse_fallback _ Hs). cbn [bind].
  destruct (fallback_severity_label response) as (severity & -> & Hsev).
  now apply validate_unstructured.
Qed.


(** C5: on a response with no brace-delimited object, the parse is the
    fallback result, which [classify] returns unchanged: the three
    sub-scores 5, the weighted score 5.0, the reasoning "Parsed from
    unstructured response", and a severity found by looking for a keyword
    in the response, each of its letters small or capital, "critical"
    before "high" before "low", and Medium when none of the three
    occurs. *)
Theorem classify_unstructured self error_message test_context endpoint response llm :
  generate (llm_engine self)
    (PromptTemplates.bug_classification_prompt error_message test_context endpoint)
    temperature = (Ok response, llm) ->
  ~ has_object response ->
  exists severity,
    _parse_classification json_loads response = Ok (unstructured_result severity)
    /\ fst (classify generate json_loads self error_message test_context endpoint)
       = Ok (unstructured_result severity)
    /\ (occurs_ignoring_case "critical" response -> severity = "Critical")
    /\ (~ occurs_ignoring_case "critical" response ->
        occurs_ignoring_case "high" response -> severity = "High")
    /\ (~ occurs_ignoring_case "critical" response ->
        ~ occurs_ignoring_case "high" response ->
        occurs_ignoring_case "low" response -> severity = "Low")
    /\ (~ occurs_ignoring_case "critical" response ->
        ~ occurs_ignoring_case "high" response ->
        ~ occurs_ignoring_case "low" response -> severity = "Medium").
Proof.
  intros Hgen Hs%search_object_none.
  rewrite (classify_eq _ _ _ _ _ _ Hgen), (run_fallback _ Hs).
  rewrite (parse_fallback _ Hs).
  destruct (fallback_unstructured response) as (severity & -> & H).
  rewrite !icontains_occurs in H by reflexivity.
  exists severity. auto.
Qed.

(** C10: when the object found in the response decodes to a dict, each
    of the three sub-score keys that the dict leaves out is left out of the
    result of [classify] too, and [weighted_score] is the weighted sum in
    which a key left out counts as 5 and a key present counts as its
    clamped value; the dict with the single entry severity High gives
    severity High, the weighted score 5.0 and nothing else. *)
Theorem classify_missing_scores
    self error_message test_context endpoint response llm js d c self' :
  generate (llm_engine self)
    (PromptTemplates.bug_classification_prompt error_message test_context endpoint)
    temperature = (Ok response, llm) ->
  Re.search_object response = Some js ->
  json_loads js = Ok d ->
  classify generate json_loads self error_message test_context endpoint = (Ok c, self') ->
  (forall k, k ∈ score_keys -> d !! k = None -> c !! k = None)
  /\ (exists i f r,
        c !! "weighted_score" = Some (VFloat (weighted_formula i f r))
        /\ component d c "impact_score" i
        /\ component d c "frequency_score" f
        /\ component d c "recovery_score" r)
  /\ (d = {[ "severity" := VStr "High" ]} ->
      c = {[ "severity" := VStr "High"; "weighted_score" := VFloat 5 ]}).
Proof.
  intros Hgen Hs Hjs Hc.
  apply classify_inv in Hc as (response' & llm' & p & Hgen' & Hp & Hv & _).
  rewrite Hgen in Hgen'. injection Hgen' as <- <-.
  rewrite (parse_decoded _ _ _ Hs Hjs) in Hp.
  assert (forall k, k ∈ score_keys -> p !! k = d !! k) as Hpd.
  { intros k [_ Hk]%score_key_not_severity.
    destruct (has_key d "weighted_score"); [now injection Hp as <-|].
    apply bind_ok in Hp as (w & _ & [= <-]). apply lookup_insert_ne. congruence. }
  assert (forall k, k ∈ score_keys -> clamped (d !! k) (c !! k)) as Hclamped.
  { intros k Hk. rewrite <- (Hpd k Hk). now apply validate_score_lookup. }
  split; [|split].
  - intros k Hk Hnone. specialize (Hclamped k Hk). now rewrite Hnone in Hclamped.
  - destruct (validate_weighted_ok _ _ Hv) as (i & f & r & Hi & Hf & Hr & Hw).
    exists i, f, r. split; [assumption|].
    assert (forall k x, k ∈ score_keys -> as_float (get c k (VInt 5)) = Ok x ->
              component d c k x) as Hcomp.
    { intros k x Hk Hx. specialize (Hclamped k Hk). unfold component, get in *.
      destruct (d !! k) as [v0|].
      - destruct Hclamped as (cv & _ & Hcv). rewrite Hcv in Hx. eauto.
      - rewrite Hclamped in Hx. vm_compute in Hx. now injection Hx as <-. }
    repeat split; apply Hcomp; try assumption; unfold score_keys; set_solver.
  - intros ->.
    change (Ok (<["weighted_score" := VFloat 5]>
                  ({[ "severity" := VStr "High" ]} : gmap string value)) = Ok p) in Hp.
    injection Hp as <-.
    change (Ok ({[ "severity" := VStr "High"; "weighted_score" := VFloat 5 ]}
                  : gmap string value) = Ok c) in Hv.
    now injection Hv as <-.
Qed.

End ClassifierFacts.


Lemma occurrences_cons s item history :
  occurrences s (item :: history)
  = ((if is_severity s item then 1 else 0) + occurrences s history)%Z.
Proof.
  unfold occurrences. cbn [List.filter]. destruct (is_severity s item); cbn [length]; lia.
Qed.

Lemma occurrences_nonneg s history : (0 <= occurrences s history)%Z.
Proof. unfold occurrences. lia. Qed.

Lemma count_loop_ok history :
  Forall item_ok history ->
  forall (counts : gmap string Z) (x : float),
  exists ws table,
    weights history ws
    /\ count_loop history counts (NFloat x) = Ok (table, NFloat (fold_left PrimFloat.add ws x))
    /\ forall s,
         table !! s =
         if (occurrences s history =? 0)%Z then counts !! s
         else Some (default 0%Z (counts !! s) + occurrences s history)%Z.
Proof.
  induction 1 as [|item history [(s0 & Hs0) (w & Hw)] _ IH]; intros counts x.
  - exists [], counts. split; [constructor|]. split; [reflexivity|]. reflexivity.
  - destruct (IH (<[s0 := (default 0 (counts !! s0) + 1)%Z]> counts) (x + w)%float)
      as (ws & table & Hws & Hloop & Htable).
    exists (w :: ws), table. split; [now constructor|]. split.
    + cbn [count_loop]. unfold getitem. rewrite Hs0, Hw. cbn [bind severity_key py_add number_of].
      exact Hloop.
    + intros s. rewrite Htable, occurrences_cons. unfold is_severity. rewrite Hs0.
      pose proof (occurrences_nonneg s history) as Hnn.
      destruct (String.eqb s s0) eqn:E.
      * apply String.eqb_eq in E as ->. rewrite lookup_insert_eq. cbn [default]. unfold id.
        destruct (occurrences s0 history =? 0)%Z eqn:E0.
        -- apply Z.eqb_eq in E0. rewrite E0.
           replace (1 + 0 =? 0)%Z with false by reflexivity. f_equal; lia.
        -- replace (1 + occurrences s0 history =? 0)%Z with false by (symmetry; apply Z.eqb_neq; lia).
           f_equal; lia.
      * apply String.eqb_neq in E. rewrite lookup_insert_ne by congruence.
        now rewrite Z.add_0_l.
Qed.

Lemma validate_severity_label (d c : gmap string value) :
  _validate_classification d = Ok c -> is_label (c !! "severity").
Proof.
  intros Hval. rewrite (validate_severity _ _ Hval). unfold coerce_severity.
  destruct (value_in _ _) eqn:E.
  - now apply value_in_label.
  - rewrite lookup_insert_eq. exists "Medium". split; [reflexivity|].
    apply list_elem_of_further, list_elem_of_further, list_elem_of_here.
Qed.

Lemma validate_item_ok (d c : gmap string value) endpoint :
  _validate_classification d = Ok c ->
  item_ok {| endpoint := endpoint; classification := c |}.
Proof.
  intros Hval. split; cbn [classification].
  - destruct (validate_severity_label _ _ Hval) as (s & Hs & _). eauto.
  - destruct (validate_weighted_ok _ _ Hval) as (i & f & r & _ & _ & _ & Hw). eauto.
Qed.

Lemma count_loop_from_zero history (counts : gmap string Z) :
  Forall item_ok history ->
  history <> [] ->
  count_loop history counts (NInt 0) = count_loop history counts (NFloat 0).
Proof.
  intros Hok Hne. destruct history as [|item rest]; [congruence|].
  apply Forall_cons in Hok as [[(s & Hs) (w & Hw)] _].
  cbn [count_loop]. unfold getitem. rewrite Hs, Hw. reflexivity.
Qed.

Section StatisticsFacts.

Context {engine : Type}.

Variable generate : engine -> string -> float -> result string * engine.

Variable json_loads : string -> result (gmap string value).

Lemma reachable_items_ok self :
  reachable generate json_loads self -> Forall item_ok (classification_history self).
Proof.
  intros H%reachable_history. eapply Forall_impl; [exact H|].
  intros [ep c] (p & Hp). cbn [classification] in Hp. now apply validate_item_ok with p.
Qed.

(** C8: after any sequence of calls of [classify], [get_statistics] on an
    empty history is zero classifications, the empty table and the average
    0.0; on a history that is not empty it is the number of entries, the
    table giving each severity that occurs its number of occurrences, and
    the sum of the weighted scores, added in order from 0, divided by the
    number of entries; below 2^53 entries the call returns. *)
Theorem get_statistics_spec (self : BugClassifier) :
  reachable generate json_loads self ->
  let history := classification_history self in
  (history = [] ->
   get_statistics self
   = Ok {| total_classifications := 0;
           severity_distribution := ∅;
           average_weighted_score := 0 |})
  /\ (history <> [] ->
      exists (ws : list float) (table : gmap string Z),
        weights history ws
        /\ frequency_table history table
        /\ get_statistics self
           = let* n := float_of_int (Z.of_nat (length history)) in
             Ok {| total_classifications := Z.of_nat (length history);
                   severity_distribution := table;
                   average_weighted_score := (float_sum ws / n)%float |})
  /\ ((Z.of_nat (length history) < 2 ^ 53)%Z ->
      exists stats, get_statistics self = Ok stats).
Proof.
  intros Hreach history.
  assert (history = [] ->
          get_statistics self
          = Ok {| total_classifications := 0;
                  severity_distribution := ∅;
                  average_weighted_score := 0 |}) as Hempty.
  { intros H. unfold get_statistics. fold history. now rewrite H. }
  assert (history <> [] ->
      exists (ws : list float) (table : gmap string Z),
        weights history ws
        /\ frequency_table history table
        /\ get_statistics self
           = let* n := float_of_int (Z.of_nat (length history)) in
             Ok {| total_classifications := Z.of_nat (length history);
                   severity_distribution := table;
                   average_weighted_score := (float_sum ws / n)%float |}) as Hfull;
    [|split; [exact Hempty | split; [exact Hfull|]]].
  2: { intros Hlen. destruct (classification_history self) as [|item rest] eqn:E.
       - eexists. now apply Hempty.
       - destruct Hfull as (ws & table & _ & _ & ->); [subst history; congruence|].
         destruct (float_of_int_total (Z.of_nat (length history))) as [n ->]; [lia|].
         eexists. reflexivity. }
  - intros Hne. pose proof (reachable_items_ok self Hreach) as Hok. fold history in Hok.
    destruct (count_loop_ok history Hok ∅ 0%float) as (ws & table & Hws & Hloop & Htable).
    exists ws, table. split; [assumption|]. split.
    + intros s. rewrite Htable, lookup_empty. cbn [default].
      destruct (occurrences s history =? 0)%Z; [reflexivity|]. f_equal; lia.
    + unfold get_statistics. fold history.
      destruct history as [|item rest] eqn:E; [congruence|].
      rewrite count_loop_from_zero by assumption. rewrite Hloop.
      cbn [bind py_truediv]. unfold float_sum.
      destruct (float_of_int (Z.of_nat (length (item :: rest)))); reflexivity.
Qed.

End StatisticsFacts.

(** C1 on the worked example: scores 9, 20 and -3 give 9, 10, 0 and the
    weighted score 7.5. *)
Lemma classify_weighted_score_witness :
  weighted_ok clamped_result
  /\ Forall (fun item => weighted_ok (classification item))
       (classification_history after_clamped)
  /\ (forall p x,
        _validate_classification (<["weighted_score" := x]> p)
        = _validate_classification p).
Proof.
  apply (classify_weighted_score (samples.canned samples.text_clamped) samples.sample_loads
           (init []) "AssertionError" "checkout" "/api/orders" clamped_result after_clamped).
  - apply reachable_init.
  - reflexivity.
Defined.


(** C3 on the worked example: a frequency score of 20 comes out as 10. *)
Lemma validate_scores_in_range_witness :
  in_range (VInt 10)
  /\ (forall n, samples.dict_clamped !! "frequency_score" = Some (VInt n) -> (n < 0)%Z ->
        VInt 10 = VInt 0)
  /\ (forall n, samples.dict_clamped !! "frequency_score" = Some (VInt n) -> (10 < n)%Z ->
        VInt 10 = VInt 10)
  /\ (forall f, samples.dict_clamped !! "frequency_score" = Some (VFloat f) ->
        (f <? 0)%float = true -> VInt 10 = VInt 0)
  /\ (forall f, samples.dict_clamped !! "frequency_score" = Some (VFloat f) ->
        (10 <? f)%float = true -> VInt 10 = VInt 10).
Proof.
  apply (validate_scores_in_range samples.dict_clamped clamped_result "frequency_score" (VInt 10)).
  - reflexivity.
  - apply list_elem_of_further, list_elem_of_here.
  - reflexivity.
Defined.

(** C4 on a decoded object whose severity is the word Severe. *)
Lemma validate_coerces_severity_witness :
  _validate_classification samples.dict_severe = Ok coerced_result
  /\ coerced_result !! "severity" = Some (VStr "Medium").
Proof.
  split; [reflexivity|].
  apply (validate_coerces_severity samples.dict_severe).
  - intros (s & H & Hs). vm_compute in H. injection H as <-.
    repeat (apply elem_of_cons in Hs as [Hs | Hs]; [discriminate|]).
    now apply elem_of_nil in Hs.
  - reflexivity.
Defined.

Lemma occurs_contains (keyword s : string) :
  small_letters keyword = true ->
  occurs_ignoring_case keyword s -> contains keyword (lower s) = true.
Proof.
  intros Hsmall H. apply contains_lower_iff. now apply icontains_occurs.
Qed.

(** C5 on the response "the system is critical and unrecoverable", which
    gives Critical, and on a response with HIGH in capitals before Low,
    which gives High. *)
Lemma classify_unstructured_witness :
  fst (classify (samples.canned samples.text_prose) samples.sample_loads
         (init []) "AssertionError" "checkout" "/api/orders")
  = Ok (unstructured_result "Critical")
  /\ fst (classify (samples.canned samples.text_capitals) samples.sample_loads
            (init []) "AssertionError" "checkout" "/api/orders")
     = Ok (unstructured_result "High").
Proof.
  split.
  - destruct (classify_unstructured (samples.canned samples.text_prose) samples.sample_loads
                (init []) "AssertionError" "checkout" "/api/orders" samples.text_prose
                [PromptTemplates.bug_classification_prompt
                   "AssertionError" "checkout" "/api/orders"])
      as (severity & _ & -> & Hcritical & _).
    + reflexivity.
    + apply search_object_none. reflexivity.
    + rewrite Hcritical; [reflexivity|].
      exists "the system is ", "critical", " and unrecoverable".
      split; [reflexivity | cbn; tauto].
  - destruct (classify_unstructured (samples.canned samples.text_capitals) samples.sample_loads
                (init []) "AssertionError" "checkout" "/api/orders" samples.text_capitals
                [PromptTemplates.bug_classification_prompt
                   "AssertionError" "checkout" "/api/orders"])
      as (severity & _ & -> & _ & Hhigh & _).
    + reflexivity.
    + apply search_object_none. reflexivity.
    + rewrite Hhigh; [reflexivity | |].
      * intros H%occurs_contains; [|reflexivity]. vm_compute in H. discriminate.
      * exists "Impact is ", "HIGH", ", likelihood Low".
        split; [reflexivity | cbn; tauto].
Defined.

(** C10 on the response [{"severity": "High"}]. *)
Lemma classify_missing_scores_witness :
  (forall k, k ∈ score_keys -> samples.dict_high !! k = None -> high_result !! k = None)
  /\ (exists i f r,
        high_result !! "weighted_score" = Some (VFloat (weighted_formula i f r))
        /\ component samples.dict_high high_result "impact_score" i
        /\ component samples.dict_high high_result "frequency_score" f
        /\ component samples.dict_high high_result "recovery_score" r)
  /\ (samples.dict_high = {[ "severity" := VStr "High" ]} ->
      high_result = {[ "severity" := VStr "High"; "weighted_score" := VFloat 5 ]}).
Proof.
  apply (classify_missing_scores (samples.canned samples.text_high) samples.sample_loads
           (init []) "AssertionError" "checkout" "/api/orders" samples.text_high
           [PromptTemplates.bug_classification_prompt "AssertionError" "checkout" "/api/orders"]
           samples.text_high samples.dict_high high_result after_high).
  - reflexivity.
  - reflexivity.
  - reflexivity.
  - reflexivity.
Defined.

(** C8 on the classifier after the worked example. *)
Lemma get_statistics_spec_witness :
  let history := classification_history after_clamped in
  (history = [] ->
   get_statistics after_clamped
   = Ok {| total_classifications := 0;
           severity_distribution := ∅;
           average_weighted_score := 0 |})
  /\ (history <> [] ->
      exists (ws : list float) (table : gmap string Z),
        weights history ws
        /\ frequency_table history table
        /\ get_statistics after_clamped
           = let* n := float_of_int (Z.of_nat (length history)) in
             Ok {| total_classifications := Z.of_nat (length history);
                   severity_distribution := table;
                   average_weighted_score := (float_sum ws / n)%float |})
  /\ ((Z.of_nat (length history) < 2 ^ 53)%Z ->
      exists stats, get_statistics after_clamped = Ok stats).
Proof.
  apply (get_statistics_spec (samples.canned samples.text_clamped) samples.sample_loads
           after_clamped).
  apply reachable_classify, reachable_init.
Defined.

Lemma clamp_kept v : kept v -> clamp v = Ok v.
Proof.
  destruct v as [ | b | n | f | s | l | l ]; cbn [kept]; try tauto.
  - intros ->. reflexivity.
  - intros H. rewrite clamp_int.
    destruct (n <? 10)%Z eqn:E10; [destruct (0 <? n)%Z eqn:E0|]; do 2 f_equal; lia.
  - intros [H0 H10]. rewrite clamp_float, H10, H0. reflexivity.
Qed.

Lemma clamp_fixed v c : clamp v = Ok c -> clamp c = Ok c.
Proof.
  destruct v as [ | b | n | f | s | l | l ]; try discriminate.
  - rewrite clamp_bool. intros [= <-]. destruct b; reflexivity.
  - rewrite clamp_int. intros [= <-]. apply clamp_kept. cbn [kept].
    destruct (n <? 10)%Z eqn:E10; [destruct (0 <? n)%Z eqn:E0|]; lia.
  - rewrite clamp_float. intros [= <-].
    destruct (f <? 10)%float eqn:E10; [destruct (0 <? f)%float eqn:E0|];
      try reflexivity.
    apply clamp_kept. cbn [kept]. auto.
Qed.

Lemma clamp_scores_fixed keys : forall m : gmap string value,
  (forall k v, k ∈ keys -> m !! k = Some v -> clamp v = Ok v) ->
  clamp_scores keys m = Ok m.
Proof.
  induction keys as [|key keys IH]; intros m Hm; [reflexivity|].
  cbn [clamp_scores]. unfold clamp_score.
  destruct (m !! key) as [v|] eqn:E.
  - rewrite (Hm key v (list_elem_of_here _ _) E). cbn [bind].
    rewrite insert_id by assumption.
    apply IH. intros k v' Hk. apply Hm. now apply list_elem_of_further.
  - cbn [bind]. apply IH. intros k v' Hk. apply Hm. now apply list_elem_of_further.
Qed.

Lemma coerce_severity_label (d : gmap string value) :
  is_label (d !! "severity") -> coerce_severity d = d.
Proof. intros H%value_in_label. unfold coerce_severity. now rewrite H. Qed.

Lemma validate_fixed (d : gmap string value) w :
  is_label (d !! "severity") ->
  (forall k v, k ∈ score_keys -> d !! k = Some v -> clamp v = Ok v) ->
  weighted_sum d = Ok w ->
  _validate_classification d = Ok (<["weighted_score" := VFloat w]> d).
Proof.
  intros Hlabel Hfixed Hw. unfold _validate_classification. fold (coerce_severity d).
  rewrite (coerce_severity_label _ Hlabel), (clamp_scores_fixed _ _ Hfixed).
  cbn [bind]. now rewrite Hw.
Qed.

(** X1: validation is idempotent: a dict that [_validate_classification]
    returns is returned unchanged when it is validated again. *)
Theorem validate_idempotent (d c : gmap string value) :
  _validate_classification d = Ok c -> _validate_classification c = Ok c.
Proof.
  intros Hval.
  pose proof (validate_severity_label _ _ Hval) as Hlabel.
  pose proof (validate_severity _ _ Hval) as Hsev.
  destruct (validate_inv _ _ Hval) as (d' & w & Hd' & Hw & ->).
  destruct (clamp_scores_lookup _ _ _ score_keys_NoDup Hd') as [Hin Hout].
  rewrite validate_ignores_weighted.
  rewrite lookup_insert_ne in Hlabel by discriminate.
  rewrite (validate_fixed d' w Hlabel); [reflexivity| |assumption].
  intros k v Hk Hv. specialize (Hin k Hk). unfold clamped in Hin.
  destruct (coerce_severity d !! k) as [v0|]; [|congruence].
  destruct Hin as (c0 & Hc0 & Hc0'). rewrite Hc0' in Hv. injection Hv as <-.
  eapply clamp_fixed, Hc0.
Qed.

(** X2: when the severity is one of the four labels and every sub-score
    present is an int from 0 to 10, a float strictly between 0 and 10, or
    [True], validation changes nothing but [weighted_score], which it sets
    to the weighted sum. *)
Theorem validate_keeps_valid_scores (d : gmap string value) :
  is_label (d !! "severity") ->
  (forall k v, k ∈ score_keys -> d !! k = Some v -> kept v) ->
  exists w,
    weighted_sum d = Ok w
    /\ _validate_classification d = Ok (<["weighted_score" := VFloat w]> d).
Proof.
  intros Hlabel Hkept.
  assert (forall k v, k ∈ score_keys -> d !! k = Some v -> clamp v = Ok v) as Hfixed
    by (intros k v Hk Hv; eapply clamp_kept, Hkept; eassumption).
  pose proof (clamp_scores_fixed _ _ Hfixed) as Hd.
  destruct (clamped_scores_weighted _ _ Hd) as [w Hw].
  exists w. split; [assumption|]. now apply validate_fixed.
Qed.

Lemma clamp_raise v e : clamp v = Raise e -> e = TypeError /\ number_of v = None.
Proof.
  destruct v as [ | b | n | f | s | l | l ]; try (now intros [= <-]).
  - now rewrite clamp_bool.
  - now rewrite clamp_int.
  - now rewrite clamp_float.
Qed.

Lemma validate_entry_valid (d c : gmap string value) :
  _validate_classification d = Ok c -> entry_valid c.
Proof.
  intros Hval. split; [eapply validate_severity_label, Hval|]. split.
  - intros k v Hk Hv. pose proof (validate_score_lookup _ _ _ Hval Hk) as Hc.
    unfold clamped in Hc. destruct (d !! k) as [v0|]; [|congruence].
    destruct Hc as (c0 & Hc0 & Hc0'). rewrite Hc0' in Hv. injection Hv as <-.
    eapply clamp_in_range, Hc0.
  - destruct (validate_weighted_ok _ _ Hval) as (i & f & r & _ & _ & _ & Hw). eauto.
Qed.

Lemma clamp_number v c : clamp v = Ok c -> number_of c <> None.
Proof.
  intros H%clamp_in_range. unfold in_range in H. now destruct (number_of c).
Qed.

Lemma clamp_scores_raise keys : forall (m : gmap string value) e,
  clamp_scores keys m = Raise e ->
  e = TypeError /\ exists k v, k ∈ keys /\ m !! k = Some v /\ number_of v = None.
Proof.
  induction keys as [|key keys IH]; intros m e; [discriminate|].
  cbn [clamp_scores]. unfold clamp_score.
  destruct (m !! key) as [v|] eqn:E.
  - destruct (clamp v) as [c|e0] eqn:Hc; cbn [bind].
    + intros (-> & k & v' & Hk & Hv' & Hnum)%IH. split; [reflexivity|].
      destruct (decide (k = key)) as [-> | Hne].
      * rewrite lookup_insert_eq in Hv'. injection Hv' as <-.
        now apply clamp_number in Hc.
      * rewrite lookup_insert_ne in Hv' by congruence.
        exists k, v'. auto using list_elem_of_further.
    + intros [= ->]. apply clamp_raise in Hc as [-> Hnum]. split; [reflexivity|].
      exists key, v. auto using list_elem_of_here.
  - cbn [bind]. intros (-> & k & v' & Hk & Hv' & Hnum)%IH. split; [reflexivity|].
    exists k, v'. auto using list_elem_of_further.
Qed.

Lemma validate_raise (d : gmap string value) e :
  _validate_classification d = Raise e -> e = TypeError /\ worded_score d.
Proof.
  unfold _validate_classification. fold (coerce_severity d).
  destruct (clamp_scores score_keys (coerce_severity d)) as [d'|e'] eqn:Hd'; cbn [bind].
  - destruct (clamped_scores_weighted _ _ Hd') as [w ->]. discriminate.
  - intros [= ->]. apply clamp_scores_raise in Hd' as (-> & k & v & Hk & Hv & Hnum).
    split; [reflexivity|]. exists k, v.
    rewrite coerce_severity_scores in Hv by assumption. auto.
Qed.

(** X3: [_validate_classification] raises exactly when one of the three
    sub-scores is present and is not a number, and what it raises is
    [TypeError]; on every other dict it returns. *)
Theorem validate_raises_on_worded_score (d : gmap string value) :
  (worded_score d -> _validate_classification d = Raise TypeError)
  /\ (forall e, _validate_classification d = Raise e -> e = TypeError /\ worded_score d)
  /\ (~ worded_score d -> exists c, _validate_classification d = Ok c).
Proof.
  pose proof (validate_raise d) as Hraise.
  split; [|split; [exact Hraise|]].
  - intros (k & v & Hk & Hv & Hnum).
    destruct (_validate_classification d) as [c|e] eqn:Hval.
    + pose proof (validate_score_lookup _ _ _ Hval Hk) as Hc. unfold clamped in Hc.
      rewrite Hv in Hc. destruct Hc as (c0 & Hc0 & _).
      rewrite (clamp_not_number v Hnum) in Hc0. discriminate.
    + now destruct (Hraise e eq_refl) as [-> _].
  - intros Hno. destruct (_validate_classification d) as [c|e] eqn:Hval; [eauto|].
    destruct (Hraise e eq_refl) as [_ Hw]. contradiction.
Qed.

Lemma match_object_app (s tail found : string) :
  Re.match_object s = Some found -> Re.match_object (s +:+ tail) = Some found.
Proof.
  intros (body & post & -> & Hb & ->)%match_object_some.
  change ("{" +:+ body +:+ "}" +:+ post) with (String "{" (body +:+ String "}" post)).
  rewrite append_cons.
  assert ((body +:+ String "}" post) +:+ tail = body +:+ String "}" (post +:+ tail)) as ->
    by (now rewrite append_assoc, append_cons).
  cbn [Re.match_object].
  replace (Ascii.eqb "{" "{") with true by reflexivity.
  rewrite (span_nobrace_app body (post +:+ tail) "}" Hb eq_refl).
  reflexivity.
Qed.

(** X5: the text that [_parse_classification] hands to [json.loads] is a
    part of the response, an opening brace, a text without braces and a
    closing brace, and no such object lies in the text before it: of
    nested objects the innermost, leftmost one is taken. *)
Theorem search_object_shape (s found : string) :
  Re.search_object s = Some found ->
  exists pre body post,
    s = pre +:+ found +:+ post
    /\ found = "{" +:+ body +:+ "}"
    /\ brace_free body = true
    /\ ~ has_object pre.
Proof.
  induction s as [|c s IH]; cbn [Re.search_object].
  - discriminate.
  - destruct (Re.match_object (String c s)) as [m|] eqn:E.
    + intros [= ->]. apply match_object_some in E as (body & post & -> & Hb & ->).
      exists "", body, post. rewrite append_nil.
      split; [now rewrite !append_assoc|].
      split; [reflexivity|]. split; [assumption|]. now apply search_object_none.
    + intros (pre & body & post & -> & -> & Hb & Hpre)%IH.
      exists (String c pre), body, post. rewrite append_cons.
      split; [reflexivity|]. split; [reflexivity|]. split; [assumption|].
      apply search_object_none. cbn [Re.search_object].
      destruct (Re.match_object (String c pre)) as [m|] eqn:E'.
      * apply (match_object_app _ (("{" +:+ body +:+ "}") +:+ post)) in E'.
        rewrite append_cons in E'. congruence.
      * now apply search_object_none.
Qed.

Lemma occurrences_unlabelled s history :
  Forall labelled history -> s ∉ ["Critical"; "High"; "Medium"; "Low"] ->
  occurrences s history = 0%Z.
Proof.
  intros Hall Hs. induction Hall as [|item history (l & Hl & Hin) _ IH]; [reflexivity|].
  rewrite occurrences_cons, IH. unfold is_severity. rewrite Hl.
  destruct (String.eqb s l) eqn:E; [|reflexivity].
  apply String.eqb_eq in E as ->. contradiction.
Qed.

Lemma occurrences_total history :
  Forall labelled history ->
  (occurrences "Critical" history + occurrences "High" history
   + occurrences "Medium" history + occurrences "Low" history)%Z
  = Z.of_nat (length history).
Proof.
  induction 1 as [|item history (l & Hl & Hin) _ IH]; [reflexivity|].
  rewrite !occurrences_cons. unfold is_severity. rewrite Hl.
  cbn [length]. rewrite Nat2Z.inj_succ, <- IH.
  repeat (apply elem_of_cons in Hin as [-> | Hin]; [cbn [String.eqb Ascii.eqb Bool.eqb]; lia|]).
  now apply elem_of_nil in Hin.
Qed.

Section ClassifierExtras.

Context {engine : Type}.

Variable generate : engine -> string -> float -> result string * engine.

Variable json_loads : string -> result (gmap string value).

(** X8: after any sequence of calls of [classify], every entry of the
    history has one of the four labels as its severity, sub-scores from 0
    to 10 where present, and a float [weighted_score]. *)
Theorem history_entries_valid (self : BugClassifier) :
  reachable generate json_loads self ->
  Forall (fun item => entry_valid (classification item)) (classification_history self).
Proof.
  intros H%reachable_history. eapply Forall_impl; [exact H|].
  intros item (p & Hp). eapply validate_entry_valid, Hp.
Qed.

Lemma reachable_labelled (self : BugClassifier) :
  reachable generate json_loads self -> Forall labelled (classification_history self).
Proof.
  intros H%reachable_history. eapply Forall_impl; [exact H|].
  intros item (p & Hp). eapply validate_severity_label, Hp.
Qed.

Lemma classify_step (self : BugClassifier) error_message test_context endpoint r self' :
  classify generate json_loads self error_message test_context endpoint = (r, self') ->
  match r with
  | Ok c =>
      classification_history self'
      = (classification_history self
         ++ [{| endpoint := endpoint; classification := c |}])%list
  | Raise e => classification_history self' = classification_history self
  end.
Proof.
  unfold classify.
  destruct (generate _ _ _) as [response llm].
  destruct (let* response := response in
            let* classification := _parse_classification json_loads response in
            _validate_classification classification) as [c|e];
    intros [= <- <-]; reflexivity.
Qed.

(** X6: a call of [classify] consults the service once, with the
    classification prompt of its three arguments at temperature 0.2, and
    keeps the state of the service; when it returns, the history has one
    more entry at its end, the endpoint with the result; when it raises,
    the history is as before. *)
Theorem classify_records (self : BugClassifier) error_message test_context endpoint r self' :
  classify generate json_loads self error_message test_context endpoint = (r, self') ->
  llm_engine self'
  = snd (generate (llm_engine self)
           (PromptTemplates.bug_classification_prompt error_message test_context endpoint)
           temperature)
  /\ match r with
     | Ok c =>
         classification_history self'
         = (classification_history self
            ++ [{| endpoint := endpoint; classification := c |}])%list
     | Raise e => classification_history self' = classification_history self
     end.
Proof.
  unfold classify.
  destruct (generate _ _ _) as [response llm]. cbn [snd].
  destruct (let* response := response in
            let* classification := _parse_classification json_loads response in
            _validate_classification classification) as [c|e];
    intros [= <- <-]; split; reflexivity.
Qed.

Lemma parse_raise response e :
  (forall js e', json_loads js = Raise e' -> e' = JSONDecodeError) ->
  _parse_classification json_loads response = Raise e ->
  e = TypeError \/ e = OverflowError.
Proof.
  intros Hloads. unfold _parse_classification.
  destruct (Re.search_object response) as [js|].
  - destruct (json_loads js) as [d|e'] eqn:Hjs; cbn [bind].
    + destruct (has_key d "weighted_score"); [discriminate|].
      destruct (weighted_sum d) as [w|e'] eqn:Hw; cbn [bind]; [discriminate|].
      destruct (weighted_sum_raise _ _ Hw) as [-> | ->]; intros [= <-]; auto.
    + rewrite (Hloads _ _ Hjs). discriminate.
  - cbn [bind]. destruct (has_key _ _); [discriminate|].
    destruct (weighted_sum (_fallback_parse response)) as [w|e'] eqn:Hw; cbn [bind];
      [discriminate|].
    destruct (weighted_sum_raise _ _ Hw) as [-> | ->]; intros [= <-]; auto.
Qed.

(** X7: with a [json.loads] that raises nothing but [JSONDecodeError],
    what [classify] raises is what the service raised, or [TypeError], or
    [OverflowError]. *)
Theorem classify_raises_only (self : BugClassifier) error_message test_context endpoint e self' :
  (forall js e', json_loads js = Raise e' -> e' = JSONDecodeError) ->
  classify generate json_loads self error_message test_context endpoint = (Raise e, self') ->
  fst (generate (llm_engine self)
         (PromptTemplates.bug_classification_prompt error_message test_context endpoint)
         temperature) = Raise e
  \/ e = TypeError \/ e = OverflowError.
Proof.
  intros Hloads. unfold classify.
  destruct (generate _ _ _) as [[response|e0] llm]; cbn [bind fst].
  - destruct (_parse_classification json_loads response) as [p|e1] eqn:Hp; cbn [bind].
    + destruct (_validate_classification p) as [c|e2] eqn:Hv; [discriminate|].
      intros [= <- _]. right. left.
      now destruct (validate_raise p _ Hv).
    + intros [= <- _]. right. eapply parse_raise; eassumption.
  - intros [= <- _]. now left.
Qed.

Lemma get_statistics_table (self : BugClassifier) stats :
  reachable generate json_loads self ->
  get_statistics self = Ok stats ->
  total_classifications stats = Z.of_nat (length (classification_history self))
  /\ frequency_table (classification_history self) (severity_distribution stats).
Proof.
  intros Hreach. pose proof (reachable_items_ok generate json_loads self Hreach) as Hok.
  unfold get_statistics.
  destruct (classification_history self) as [|item rest] eqn:E.
  - intros [= <-]. split; [reflexivity|]. intros s. reflexivity.
  - rewrite count_loop_from_zero by (assumption || discriminate).
    destruct (count_loop_ok _ Hok ∅ 0%float) as (ws & table & _ & -> & Htable).
    cbn [bind py_truediv].
    destruct (float_of_int (Z.of_nat (length (item :: rest)))); [|discriminate].
    cbn [bind]. intros [= <-]. split; [reflexivity|]. cbn [severity_distribution].
    intros s. rewrite Htable, lookup_empty. cbn [default].
    destruct (occurrences s (item :: rest) =? 0)%Z; [reflexivity|]. f_equal; lia.
Qed.

(** X9: in what [get_statistics] returns after any sequence of calls of
    [classify], the severity table has no key outside the four labels, its
    counts are positive, and they add up to [total_classifications], the
    length of the history. *)
Theorem statistics_distribution (self : BugClassifier) stats :
  reachable generate json_loads self ->
  get_statistics self = Ok stats ->
  let table := severity_distribution stats in
  total_classifications stats = Z.of_nat (length (classification_history self))
  /\ (forall s, s ∉ valid_severities -> table !! s = None)
  /\ (forall s n, table !! s = Some n -> (0 < n)%Z)
  /\ (default 0 (table !! "Critical") + default 0 (table !! "High")
      + default 0 (table !! "Medium") + default 0 (table !! "Low"))%Z
     = total_classifications stats.
Proof.
  intros Hreach Hstats table.
  destruct (get_statistics_table self stats Hreach Hstats) as [Htotal Htable].
  pose proof (reachable_labelled self Hreach) as Hlab.
  assert (forall s, default 0%Z (table !! s) = occurrences s (classification_history self))
    as Hdef.
  { intros s. unfold table. rewrite Htable.
    destruct (occurrences s _ =? 0)%Z eqn:E; [apply Z.eqb_eq in E|]; cbn [default]; unfold id; lia. }
  split; [assumption|]. split; [|split].
  - intros s Hs. unfold table. rewrite Htable.
    now rewrite (occurrences_unlabelled s _ Hlab Hs).
  - intros s n. unfold table. rewrite Htable.
    pose proof (occurrences_nonneg s (classification_history self)).
    destruct (occurrences s _ =? 0)%Z eqn:E; [discriminate|].
    apply Z.eqb_neq in E. intros [= <-]. lia.
  - rewrite !Hdef, Htotal. now apply occurrences_total.
Qed.

End ClassifierExtras.

Lemma bug_arguments_ok (bug : gmap string value) error_message test_context endpoint :
  bug_arguments bug = Ok (error_message, test_context, endpoint) ->
  bug !! "error_message" = Some (VStr error_message)
  /\ get bug "test_context" (VStr "") = VStr test_context
  /\ bug !! "endpoint" = Some (VStr endpoint).
Proof.
  unfold bug_arguments, getitem.
  destruct (bug !! "error_message") as [v1|]; cbn [bind]; [|discriminate].
  destruct (bug !! "endpoint") as [v3|]; cbn [bind]; [|discriminate].
  destruct v1 as [ | | | | em | | ]; try discriminate.
  destruct (get bug "test_context" (VStr "")) as [ | | | | tc | | ]; try discriminate.
  destruct v3 as [ | | | | ep | | ]; try discriminate.
  cbn [bind str_of]. now intros [= <- <- <-].
Qed.

Section BatchFacts.

Context {engine : Type}.

Variable generate : engine -> string -> float -> result string * engine.

Variable json_loads : string -> result (gmap string value).

(** X10: when [classify_batch] returns, the history has grown by one
    entry for each bug, in order; the results are the bugs, each with its
    classification under the key [classification], and the entries carry
    the endpoints of the bugs and the same classifications. *)
Theorem classify_batch_results (self : BugClassifier) bugs results self' :
  classify_batch generate json_loads self bugs = (Ok results, self') ->
  exists entries,
    classification_history self' = (classification_history self ++ entries)%list
    /\ map bug_fields results = map (delete "classification") bugs
    /\ map batch_classification results = map classification entries
    /\ map (fun bug => bug !! "endpoint") bugs
       = map (fun item => Some (VStr (endpoint item))) entries.
Proof.
  revert self results self'. induction bugs as [|bug rest IH]; intros self results self'.
  - intros [= <- <-]. exists []. now rewrite app_nil_r.
  - cbn [classify_batch].
    destruct (bug_arguments bug) as [[[em tc] ep]|e] eqn:Hargs; [|discriminate].
    destruct (classify generate json_loads self em tc ep) as [[c|e] self1] eqn:Hc;
      [|discriminate].
    destruct (classify_batch generate json_loads self1 rest) as [[rs|e] self2] eqn:Hrest;
      cbn [bind]; [|discriminate].
    intros [= <- <-].
    destruct (IH _ _ _ Hrest) as (entries & Hh & Hf & Hcl & Hep).
    pose proof (classify_step _ _ _ _ _ _ _ _ Hc) as Hh1. cbn beta iota in Hh1.
    apply bug_arguments_ok in Hargs as (_ & _ & Hendpoint).
    exists ({| endpoint := ep; classification := c |} :: entries).
    split; [rewrite Hh, Hh1, <- app_assoc; reflexivity|].
    cbn [map bug_fields batch_classification classification endpoint].
    now rewrite Hf, Hcl, Hep, Hendpoint.
Qed.

(** X11: when [classify_batch], on bugs whose arguments are strings,
    raises, the batch is some bugs, the bug that failed, and the rest: the
    bugs before the failure have been classified as a batch of their own
    would have, the history has one more entry for each of them, in order,
    with its endpoint and its classification, and it is on the next bug
    that the exception is raised, which adds no entry. *)
Theorem classify_batch_failure (self : BugClassifier) bugs e self' :
  Forall str_fields bugs ->
  classify_batch generate json_loads self bugs = (Raise e, self') ->
  exists done bug rest results self1 entries,
    bugs = (done ++ bug :: rest)%list
    /\ classify_batch generate json_loads self done = (Ok results, self1)
    /\ classify_batch generate json_loads self1 [bug] = (Raise e, self')
    /\ classification_history self1 = (classification_history self ++ entries)%list
    /\ classification_history self' = (classification_history self ++ entries)%list
    /\ length entries = length done
    /\ map classification entries = map batch_classification results
    /\ map (fun bug => bug !! "endpoint") done
       = map (fun item => Some (VStr (endpoint item))) entries.
Proof.
  intros _. revert self self'. induction bugs as [|bug rest IH]; intros self self'.
  - discriminate.
  - cbn [classify_batch].
    destruct (bug_arguments bug) as [[[em tc] ep]|e0] eqn:Hargs.
    + destruct (classify generate json_loads self em tc ep) as [[c|e0] self1] eqn:Hc.
      * pose proof (classify_step _ _ _ _ _ _ _ _ Hc) as Hh1. cbn beta iota in Hh1.
        destruct (classify_batch generate json_loads self1 rest) as [[rs|e1] self2] eqn:Hrest;
          cbn [bind]; [discriminate|].
        intros [= <- <-].
        destruct (IH _ _ Hrest)
          as (done & bug' & rest' & results & self3 & entries
              & -> & Hdone & Hbug & Hh3 & Hh2 & Hlen & Hcl & Hep).
        apply bug_arguments_ok in Hargs as Hfields. destruct Hfields as (_ & _ & Hendpoint).
        exists (bug :: done), bug', rest',
          ({| bug_fields := delete "classification" bug; batch_classification := c |}
           :: results), self3,
          ({| endpoint := ep; classification := c |} :: entries).
        split; [reflexivity|].
        split; [cbn [classify_batch]; now rewrite Hargs, Hc, Hdone|].
        split; [assumption|].
        split; [rewrite Hh3, Hh1, <- app_assoc; reflexivity|].
        split; [rewrite Hh2, Hh1, <- app_assoc; reflexivity|].
        cbn [length map classification batch_classification endpoint].
        now rewrite Hlen, Hcl, Hep, Hendpoint.
      * pose proof (classify_step _ _ _ _ _ _ _ _ Hc) as Hh1. cbn beta iota in Hh1.
        intros [= <- <-]. exists [], bug, rest, [], self, [].
        split; [reflexivity|]. split; [reflexivity|].
        split; [cbn [classify_batch]; now rewrite Hargs, Hc|].
        rewrite app_nil_r. auto.
    + intros [= <- <-]. exists [], bug, rest, [], self, [].
      split; [reflexivity|]. split; [reflexivity|].
      split; [cbn [classify_batch]; now rewrite Hargs|].
      rewrite app_nil_r. auto.
Qed.

(** X12: the state after [classify_batch] on bugs whose arguments are
    strings, returned or raised, is one that calls of [classify] reach, so
    what holds after any sequence of calls of [classify] holds after a
    batch. *)
Theorem classify_batch_reachable (self : BugClassifier) bugs :
  Forall str_fields bugs ->
  reachable generate json_loads self ->
  reachable generate json_loads (snd (classify_batch generate json_loads self bugs)).
Proof.
  intros _. revert self. induction bugs as [|bug rest IH]; intros self Hreach; [assumption|].
  cbn [classify_batch].
  destruct (bug_arguments bug) as [[[em tc] ep]|e0]; [|assumption].
  pose proof (reachable_classify generate json_loads self em tc ep Hreach) as Hnext.
  destruct (classify generate json_loads self em tc ep) as [[c|e0] self1];
    cbn [snd] in Hnext; [|assumption].
  specialize (IH self1 Hnext).
  destruct (classify_batch generate json_loads self1 rest) as [rs self2]. exact IH.
Qed.

(** X13: a batch whose first bug has no [error_message] or no [endpoint]
    raises [KeyError] with the classifier as it was: the service is not
    consulted and nothing is recorded. *)
Theorem classify_batch_missing_key (self : BugClassifier) bug rest :
  bug !! "error_message" = None \/ bug !! "endpoint" = None ->
  classify_batch generate json_loads self (bug :: rest) = (Raise KeyError, self).
Proof.
  intros H. cbn [classify_batch].
  assert (bug_arguments bug = Raise KeyError) as ->; [|reflexivity].
  unfold bug_arguments, getitem.
  destruct (bug !! "error_message"); cbn [bind]; [|reflexivity].
  destruct H as [H | ->]; [discriminate | reflexivity].
Qed.

End BatchFacts.

Lemma score_range_spec n : (0 <= n <= 10)%Z -> In n score_range.
Proof.
  intros H. unfold score_range. apply in_map_iff. exists (Z.to_nat n).
  split; [lia | apply in_seq; lia].
Qed.

Lemma weighted_within_range :
  forallb (fun a => forallb (fun b => forallb (weighted_within a b) score_range) score_range)
    score_range = true.
Proof. vm_compute. reflexivity. Qed.

Lemma weighted_within_spec a b c :
  (0 <= a <= 10)%Z -> (0 <= b <= 10)%Z -> (0 <= c <= 10)%Z -> weighted_within a b c = true.
Proof.
  intros Ha%score_range_spec Hb%score_range_spec Hc%score_range_spec.
  pose proof weighted_within_range as H.
  rewrite forallb_forall in H. specialize (H a Ha).
  rewrite forallb_forall in H. specialize (H b Hb).
  rewrite forallb_forall in H. exact (H c Hc).
Qed.

Lemma validated_int_score (d c : gmap string value) k :
  _validate_classification d = Ok c -> int_scores d -> k ∈ score_keys ->
  exists n, (0 <= n <= 10)%Z /\ as_float (get c k (VInt 5)) = float_of_int n.
Proof.
  intros Hval Hint Hk. pose proof (validate_score_lookup _ _ _ Hval Hk) as Hc.
  unfold clamped in Hc. unfold get. destruct (d !! k) as [v|] eqn:E.
  - destruct (Hint k v Hk E) as [n ->]. destruct Hc as (c0 & Hc0 & ->).
    rewrite clamp_int in Hc0. injection Hc0 as <-. eexists. split; [|reflexivity].
    destruct (n <? 10)%Z eqn:E10; [destruct (0 <? n)%Z eqn:E0|]; lia.
  - rewrite Hc. exists 5%Z. split; [lia | reflexivity].
Qed.

(** X4: when the sub-scores present are ints, of any size, the weighted
    score of the validated result is a float from 0 to 10. *)
Theorem weighted_score_range (d c : gmap string value) :
  _validate_classification d = Ok c ->
  int_scores d ->
  exists w,
    c !! "weighted_score" = Some (VFloat w)
    /\ (0 <=? w)%float = true /\ (w <=? 10)%float = true.
Proof.
  intros Hval Hint.
  destruct (validate_weighted_ok _ _ Hval) as (i & f & r & Hi & Hf & Hr & Hw).
  destruct (validated_int_score d c "impact_score" Hval Hint) as (a & Ha & Ea);
    [apply list_elem_of_here|].
  destruct (validated_int_score d c "frequency_score" Hval Hint) as (b & Hb & Eb);
    [apply list_elem_of_further, list_elem_of_here|].
  destruct (validated_int_score d c "recovery_score" Hval Hint) as (n & Hn & En);
    [apply list_elem_of_further, list_elem_of_further, list_elem_of_here|].
  rewrite Ea in Hi. rewrite Eb in Hf. rewrite En in Hr.
  pose proof (weighted_within_spec a b n Ha Hb Hn) as H.
  unfold weighted_within in H. rewrite Hi, Hf, Hr in H.
  apply andb_true_iff in H. exists (weighted_formula i f r). tauto.
Qed.

Lemma sample_bugs_str_fields :
  Forall str_fields [samples.bug_order; samples.bug_no_endpoint].
Proof.
  repeat (apply Forall_cons; split); [| |apply Forall_nil_2];
    intros k v [-> | [-> | [-> | []%elem_of_nil]%elem_of_cons]%elem_of_cons]%elem_of_cons Hv;
    vm_compute in Hv; try discriminate; injection Hv as <-; eauto.
Qed.

Lemma loads_table_raise table text e :
  samples.loads_table table text = Raise e -> e = JSONDecodeError.
Proof.
  unfold samples.loads_table. destruct (find _ table); [discriminate | now intros [= <-]].
Qed.

(** X1 on the worked example. *)
Lemma validate_idempotent_witness :
  _validate_classification clamped_result = Ok clamped_result.
Proof. apply (validate_idempotent samples.dict_clamped clamped_result). reflexivity. Defined.

(** X2 on a dict with severity High and impact 7. *)
Lemma validate_keeps_valid_scores_witness :
  exists w,
    weighted_sum samples.dict_valid = Ok w
    /\ _validate_classification samples.dict_valid
       = Ok (<["weighted_score" := VFloat w]> samples.dict_valid).
Proof.
  apply (validate_keeps_valid_scores samples.dict_valid).
  - exists "High". split; [reflexivity | apply list_elem_of_further, list_elem_of_here].
  - intros k v [-> | [-> | ->]]%score_key_cases Hv; vm_compute in Hv;
      [injection Hv as <-; cbn [kept]; lia | discriminate | discriminate].
Defined.

(** X4 on the worked example. *)
Lemma weighted_score_range_witness :
  exists w,
    clamped_result !! "weighted_score" = Some (VFloat w)
    /\ (0 <=? w)%float = true /\ (w <=? 10)%float = true.
Proof.
  apply (weighted_score_range samples.dict_clamped clamped_result).
  - reflexivity.
  - intros k v [-> | [-> | ->]]%score_key_cases Hv; vm_compute in Hv;
      injection Hv as <-; eauto.
Defined.

(** X5 on a response with text around its object. *)
Lemma search_object_shape_witness :
  exists pre body post,
    samples.text_wrapped = pre +:+ samples.text_high +:+ post
    /\ samples.text_high = "{" +:+ body +:+ "}"
    /\ brace_free body = true
    /\ ~ has_object pre.
Proof. apply (search_object_shape samples.text_wrapped samples.text_high). reflexivity. Defined.

(** X6 on a classifier whose service answers with an object. *)
Lemma classify_records_witness :
  llm_engine after_high
  = snd (samples.canned samples.text_high []
           (PromptTemplates.bug_classification_prompt "AssertionError" "checkout" "/api/orders")
           temperature)
  /\ classification_history after_high
     = (classification_history (init ([] : list string))
        ++ [{| endpoint := "/api/orders"; classification := high_result |}])%list.
Proof.
  apply (classify_records (samples.canned samples.text_high) samples.sample_loads
           (init ([] : list string)) "AssertionError" "checkout" "/api/orders" (Ok high_result) after_high).
  reflexivity.
Defined.

(** X7 on a response with a worded score. *)
Lemma classify_raises_only_witness :
  fst (samples.canned samples.text_worded []
         (PromptTemplates.bug_classification_prompt "AssertionError" "checkout" "/api/orders")
         temperature) = Raise TypeError
  \/ TypeError = TypeError \/ TypeError = OverflowError.
Proof.
  apply (classify_raises_only (samples.canned samples.text_worded) samples.sample_loads
           (init ([] : list string)) "AssertionError" "checkout" "/api/orders" TypeError
           (snd (classify (samples.canned samples.text_worded) samples.sample_loads
                   (init ([] : list string)) "AssertionError" "checkout" "/api/orders"))).
  - intros js e. apply loads_table_raise.
  - reflexivity.
Defined.

(** X8 on the classifier after the worked example. *)
Lemma history_entries_valid_witness :
  Forall (fun item => entry_valid (classification item))
    (classification_history after_clamped).
Proof.
  apply (history_entries_valid (samples.canned samples.text_clamped) samples.sample_loads).
  apply reachable_classify, reachable_init.
Defined.

(** X9 on the classifier after the worked example. *)
Lemma statistics_distribution_witness :
  let table := severity_distribution stats_after_clamped in
  total_classifications stats_after_clamped
  = Z.of_nat (length (classification_history after_clamped))
  /\ (forall s, s ∉ valid_severities -> table !! s = None)
  /\ (forall s n, table !! s = Some n -> (0 < n)%Z)
  /\ (default 0 (table !! "Critical") + default 0 (table !! "High")
      + default 0 (table !! "Medium") + default 0 (table !! "Low"))%Z
     = total_classifications stats_after_clamped.
Proof.
  apply (statistics_distribution (samples.canned samples.text_clamped) samples.sample_loads
           after_clamped stats_after_clamped).
  - apply reachable_classify, reachable_init.
  - reflexivity.
Defined.

(** X10 on a batch of one bug. *)
Lemma classify_batch_results_witness :
  exists entries,
    classification_history (snd batch_run)
    = (classification_history (init ([] : list string)) ++ entries)%list
    /\ map bug_fields [{| bug_fields := samples.bug_order;
                          batch_classification := high_result |}]
       = map (delete "classification") [samples.bug_order]
    /\ map batch_classification [{| bug_fields := samples.bug_order;
                                    batch_classification := high_result |}]
       = map classification entries
    /\ map (fun bug => bug !! "endpoint") [samples.bug_order]
       = map (fun item => Some (VStr (endpoint item))) entries.
Proof.
  apply (classify_batch_results (samples.canned samples.text_high) samples.sample_loads
           (init ([] : list string)) [samples.bug_order]
           [{| bug_fields := samples.bug_order; batch_classification := high_result |}]
           (snd batch_run)).
  reflexivity.
Defined.

(** X11 on a batch whose second bug has no endpoint: the first bug stays recorded. *)
Lemma classify_batch_failure_witness :
  (exists done bug rest results self1 entries,
     [samples.bug_order; samples.bug_no_endpoint] = (done ++ bug :: rest)%list
     /\ classify_batch (samples.canned samples.text_high) samples.sample_loads
          (init ([] : list string)) done = (Ok results, self1)
     /\ classify_batch (samples.canned samples.text_high) samples.sample_loads
          self1 [bug] = (Raise KeyError, snd batch_failed)
     /\ classification_history self1
        = (classification_history (init ([] : list string)) ++ entries)%list
     /\ classification_history (snd batch_failed)
        = (classification_history (init ([] : list string)) ++ entries)%list
     /\ length entries = length done
     /\ map classification entries = map batch_classification results
     /\ map (fun bug => bug !! "endpoint") done
        = map (fun item => Some (VStr (endpoint item))) entries)
  /\ fst batch_failed = Raise KeyError
  /\ classification_history (snd batch_failed)
     = [{| endpoint := "/api/orders"; classification := high_result |}].
Proof.
  split.
  - apply (classify_batch_failure (samples.canned samples.text_high) samples.sample_loads
             (init ([] : list string)) [samples.bug_order; samples.bug_no_endpoint] KeyError
             (snd batch_failed)).
    + apply sample_bugs_str_fields.
    + reflexivity.
  - split; reflexivity.
Defined.

(** X12 on a batch whose second bug has no endpoint. *)
Lemma classify_batch_reachable_witness :
  reachable (samples.canned samples.text_high) samples.sample_loads (snd batch_failed).
Proof.
  apply (classify_batch_reachable (samples.canned samples.text_high) samples.sample_loads
           (init ([] : list string)) [samples.bug_order; samples.bug_no_endpoint]).
  - apply sample_bugs_str_fields.
  - apply reachable_init.
Defined.

(** X13 on a batch whose first bug has no endpoint. *)
Lemma classify_batch_missing_key_witness :
  classify_batch (samples.canned samples.text_high) samples.sample_loads (init ([] : list string))
    [samples.bug_no_endpoint; samples.bug_order]
  = (Raise KeyError, init ([] : list string)).
Proof.
  apply (classify_batch_missing_key (samples.canned samples.text_high) samples.sample_loads
           (init ([] : list string)) samples.bug_no_endpoint [samples.bug_order]).
  right. reflexivity.
Defined.

End BugClassifierProofs.

(** ** The log interpreter *)

Module LogInterpreterProofs.

Import log_interpreter LogInterpreterSpec StringFacts.

Lemma pattern_simple_root : pattern_simple root_pattern = "Root Cause:\s*(.*?)(?=|$)".
Proof. vm_compute. reflexivity. Qed.

Lemma search_bold_patterns response :
  Re.search "\*\*Root Cause:\*\*\s*(.*?)(?=\*\*|$)" response
  = bold_group "Root Cause:" response
  /\ Re.search "\*\*Affected Components:\*\*\s*(.*?)(?=\*\*|$)" response
     = bold_group "Affected Components:" response
  /\ Re.search "\*\*Recommended Fix:\*\*\s*(.*?)(?=\*\*|$)" response
     = bold_group "Recommended Fix:" response
  /\ Re.search "\*\*Prevention:\*\*\s*(.*?)(?=\*\*|$)" response
     = bold_group "Prevention:" response.
Proof. repeat split; reflexivity. Qed.

Lemma search_plain_patterns response :
  Re.search (pattern_simple "\*\*Root Cause:\*\*\s*(.*?)(?=\*\*|$)") response
  = plain_group "Root Cause:" response
  /\ Re.search (pattern_simple "\*\*Affected Components:\*\*\s*(.*?)(?=\*\*|$)") response
     = plain_group "Affected Components:" response
  /\ Re.search (pattern_simple "\*\*Recommended Fix:\*\*\s*(.*?)(?=\*\*|$)") response
     = plain_group "Recommended Fix:" response
  /\ Re.search (pattern_simple "\*\*Prevention:\*\*\s*(.*?)(?=\*\*|$)") response
     = plain_group "Prevention:" response.
Proof. repeat split; reflexivity. Qed.

Lemma lazy_group_plain s : Re.lazy_group Re.look_plain s = Some "".
Proof. destruct s; reflexivity. Qed.

Lemma plain_group_empty label response g : plain_group label response = Some g -> g = "".
Proof.
  unfold plain_group. induction response as [|c response IH]; cbn [Re.search_section].
  - unfold Re.match_section. destruct (Re.match_label label "") as [after|].
    + rewrite lazy_group_plain. congruence.
    + discriminate.
  - unfold Re.match_section at 1. destruct (Re.match_label label (String c response)) as [after|].
    + rewrite lazy_group_plain. congruence.
    + exact IH.
Qed.

Lemma extract_section_lookup response (interp : gmap string string) key pattern k :
  extract_section response interp (key, pattern) !! k =
  if decide (k = key) then
    match Re.search pattern response with
    | Some g => Some (strip g)
    | None =>
        match Re.search (pattern_simple pattern) response with
        | Some g => Some (strip g)
        | None => interp !! key
        end
    end
  else interp !! k.
Proof.
  unfold extract_section.
  destruct (decide (k = key)) as [-> | Hne].
  - destruct (Re.search pattern response); [apply lookup_insert_eq|].
    destruct (Re.search (pattern_simple pattern) response);
      [apply lookup_insert_eq | reflexivity].
  - destruct (Re.search pattern response); [now apply lookup_insert_ne|].
    destruct (Re.search (pattern_simple pattern) response);
      [now apply lookup_insert_ne | reflexivity].
Qed.

Lemma section_value response label (bold plain : option string) :
  bold = bold_group label response -> plain = plain_group label response ->
  match bold with
  | Some g => Some (strip g)
  | None => match plain with Some g => Some (strip g) | None => Some "" end
  end = Some (bold_field label response).
Proof.
  intros -> ->. unfold bold_field. destruct (bold_group label response); [reflexivity|].
  destruct (plain_group label response) as [g|] eqn:E; [|reflexivity].
  now rewrite (plain_group_empty _ _ _ E).
Qed.

Lemma primary_parse_lookup response :
  primary_parse response !! "root_cause" = Some (bold_field "Root Cause:" response)
  /\ primary_parse response !! "affected_components"
     = Some (bold_field "Affected Components:" response)
  /\ primary_parse response !! "recommended_fix"
     = Some (bold_field "Recommended Fix:" response)
  /\ primary_parse response !! "prevention" = Some (bold_field "Prevention:" response)
  /\ primary_parse response !! "raw_response" = Some response.
Proof.
  destruct (search_bold_patterns response) as (B1 & B2 & B3 & B4).
  destruct (search_plain_patterns response) as (P1 & P2 & P3 & P4).
  unfold primary_parse, sections. cbn [fold_left].
  repeat split.
  - rewrite !extract_section_lookup. cbn [decide]. 
    repeat (rewrite decide_False by discriminate).
    rewrite decide_True by reflexivity.
    now apply section_value.
  - rewrite !extract_section_lookup.
    repeat (rewrite decide_False by discriminate).
    rewrite decide_True by reflexivity.
    repeat (rewrite decide_False by discriminate).
    now apply section_value.
  - rewrite !extract_section_lookup.
    repeat (rewrite decide_False by discriminate).
    rewrite decide_True by reflexivity.
    repeat (rewrite decide_False by discriminate).
    now apply section_value.
  - rewrite !extract_section_lookup.
    rewrite decide_True by reflexivity.
    now apply section_value.
  - rewrite !extract_section_lookup.
    repeat (rewrite decide_False by discriminate).
    reflexivity.
Qed.

Lemma parse_interpretation_eq response :
  _parse_interpretation response =
  Ok (if String.eqb (bold_field "Root Cause:" response) ""
      then log_interpreter._fallback_parse response
      else primary_parse response).
Proof.
  unfold _parse_interpretation.
  destruct (primary_parse_lookup response) as (-> & _).
  destruct (bold_field "Root Cause:" response); reflexivity.
Qed.










(** The pattern without asterisks, [Root Cause:\s*(.*?)(?=|$)], locates
    its label and captures the empty text: a response labelled without
    asterisks goes to the paragraph fallback. *)
Lemma fallback_on_plain_labels :
  plain_group "Root Cause:" samples.response_plain = Some ""
  /\ _parse_interpretation samples.response_plain
     = Ok (log_interpreter._fallback_parse samples.response_plain)
  /\ log_interpreter._fallback_parse samples.response_plain !! "root_cause"
     = Some "Root Cause: disk full".
Proof. repeat split; reflexivity. Qed.



Section InterpreterFacts.

Context {engine : Type}.

Variable generate : engine -> string -> float -> result string * engine.

(** C9: when the service answers the interpretation prompt of the error
    log and the service name, [interpret] returns the parse of that answer
    with the service name and [original_log] added, and leaves the service
    in the state that this call, on this prompt, put it in, with one more
    entry in the history. [original_log] is the first 500 characters of the
    error log: a prefix of the log, of length the smaller of 500 and the
    length of the log, and the whole log when it has at most 500
    characters; the prompt embeds the log as it is, between two texts that
    do not depend on it. *)
Theorem interpret_original_log self error_log service_name response llm :
  generate (llm_engine self)
    (PromptTemplates.log_interpretation_prompt error_log service_name)
    temperature = (Ok response, llm) ->
  exists parsed interp self',
    interpret generate self error_log service_name = (Ok interp, self')
    /\ _parse_interpretation response = Ok parsed
    /\ interp = <["original_log" := take 500 error_log]>
                  (<["service_name" := service_name]> parsed)
    /\ self' = {| llm_engine := llm;
                  interpretation_history :=
                    (interpretation_history self
                     ++ [{| service := service_name; interpretation_of := interp |}])%list |}
    /\ interp !! "original_log" = Some (take 500 error_log)
    /\ String.length (take 500 error_log) = Nat.min 500 (String.length error_log)
    /\ (exists rest, error_log = take 500 error_log +:+ rest)
    /\ (String.length error_log <= 500 -> take 500 error_log = error_log)
    /\ (exists before after, forall log,
          PromptTemplates.log_interpretation_prompt log service_name
          = before +:+ log +:+ after).
Proof.
  intros Hgen. unfold interpret. rewrite Hgen. cbn [bind].
  rewrite parse_interpretation_eq. cbn [bind].
  eexists _, _, _. split; [reflexivity|].
  split; [reflexivity|]. split; [reflexivity|]. split; [reflexivity|].
  split; [apply lookup_insert_eq|].
  split; [apply take_length|].
  split; [apply take_prefix|].
  split; [apply take_all|].
  unfold PromptTemplates.log_interpretation_prompt. apply embedded.
Qed.

End InterpreterFacts.



(** C9 on a log of 600 characters and a service that keeps the prompts
    it is sent: the prompt kept contains the whole log, and [original_log]
    has 500 characters. *)
Lemma interpret_original_log_witness :
  (exists parsed interp self',
     interpreted_long = (Ok interp, self')
     /\ _parse_interpretation samples.response_three = Ok parsed
     /\ interp = <["original_log" := take 500 samples.long_log]>
                   (<["service_name" := "orders"]> parsed)
     /\ self' = {| llm_engine :=
                     [PromptTemplates.log_interpretation_prompt samples.long_log "orders"];
                   interpretation_history :=
                     (interpretation_history (init ([] : list string))
                      ++ [{| service := "orders"; interpretation_of := interp |}])%list |}
     /\ interp !! "original_log" = Some (take 500 samples.long_log)
     /\ String.length (take 500 samples.long_log)
        = Nat.min 500 (String.length samples.long_log)
     /\ (exists rest, samples.long_log = take 500 samples.long_log +:+ rest)
     /\ (String.length samples.long_log <= 500
         -> take 500 samples.long_log = samples.long_log)
     /\ (exists before after, forall log,
           PromptTemplates.log_interpretation_prompt log "orders"
           = before +:+ log +:+ after))
  /\ String.length samples.long_log = 600
  /\ llm_engine (snd interpreted_long)
     = [PromptTemplates.log_interpretation_prompt samples.long_log "orders"]
  /\ contains samples.long_log
       (PromptTemplates.log_interpretation_prompt samples.long_log "orders") = true
  /\ match fst interpreted_long with
     | Ok interp =>
         option_map String.length (interp !! "original_log") = Some 500
     | Raise _ => False
     end.
Proof.
  split.
  - apply (interpret_original_log (samples.canned samples.response_three) (init [])
             samples.long_log "orders" samples.response_three
             [PromptTemplates.log_interpretation_prompt samples.long_log "orders"]).
    reflexivity.
  - repeat split; vm_compute; reflexivity.
Defined.

Lemma primary_parse_keys response k :
  is_Some (primary_parse response !! k) <-> k ∈ parsed_keys.
Proof.
  unfold parsed_keys. rewrite !elem_of_cons, elem_of_nil.
  destruct (primary_parse_lookup response) as (H1 & H2 & H3 & H4 & H5).
  destruct (decide (k = "root_cause")) as [-> | N1]; [rewrite H1; split; eauto|].
  destruct (decide (k = "affected_components")) as [-> | N2]; [rewrite H2; split; eauto|].
  destruct (decide (k = "recommended_fix")) as [-> | N3]; [rewrite H3; split; eauto|].
  destruct (decide (k = "prevention")) as [-> | N4]; [rewrite H4; split; eauto 6|].
  destruct (decide (k = "raw_response")) as [-> | N5]; [rewrite H5; split; eauto 6|].
  unfold primary_parse, sections. cbn [fold_left].
  rewrite !extract_section_lookup.
  repeat (rewrite decide_False by assumption).
  rewrite !lookup_insert_ne by congruence. rewrite lookup_singleton_ne by congruence.
  split; [intros [x Hx]; discriminate | intros H; exfalso; intuition congruence].
Qed.

Lemma fallback_parse_keys response k :
  is_Some (log_interpreter._fallback_parse response !! k) <-> k ∈ parsed_keys.
Proof.
  unfold parsed_keys, log_interpreter._fallback_parse.
  rewrite !elem_of_cons, elem_of_nil.
  destruct (decide (k = "root_cause")) as [-> | N1];
    [rewrite lookup_insert_eq; split; eauto|].
  rewrite lookup_insert_ne by congruence.
  destruct (decide (k = "affected_components")) as [-> | N2];
    [rewrite lookup_insert_eq; split; eauto|].
  rewrite lookup_insert_ne by congruence.
  destruct (decide (k = "recommended_fix")) as [-> | N3];
    [rewrite lookup_insert_eq; split; eauto|].
  rewrite lookup_insert_ne by congruence.
  destruct (decide (k = "prevention")) as [-> | N4];
    [rewrite lookup_insert_eq; split; eauto 6|].
  rewrite lookup_insert_ne by congruence.
  destruct (decide (k = "raw_response")) as [-> | N5];
    [rewrite lookup_singleton_eq; split; eauto 6|].
  rewrite lookup_singleton_ne by congruence.
  split; [intros [x Hx]; discriminate | intros H; exfalso; intuition congruence].
Qed.

Lemma paragraphs_nonempty response : Forall (fun p => p <> "") (paragraphs response).
Proof.
  unfold paragraphs. induction (split_blank response) as [|p ps IH]; [constructor|].
  cbn [List.filter]. destruct (String.eqb (strip p) "") eqn:E; cbn [negb]; [exact IH|].
  cbn [map]. constructor; [|exact IH]. now apply String.eqb_neq.
Qed.

Lemma nth_nonempty (l : list string) n placeholder :
  Forall (fun p => p <> "") l -> placeholder <> "" -> nth n l placeholder <> "".
Proof.
  intros Hl Hp. revert n. induction Hl as [|p ps Hne _ IH]; intros [|n]; cbn [nth]; auto.
Qed.

(** X14: [_parse_interpretation] returns on every response, a dict with
    the keys [root_cause], [affected_components], [recommended_fix],
    [prevention] and [raw_response] and no other, whose [raw_response] is
    the response and whose [root_cause] is never empty. *)
Theorem parse_interpretation_total response :
  exists interp root_cause,
    _parse_interpretation response = Ok interp
    /\ (forall k, is_Some (interp !! k) <-> k ∈ parsed_keys)
    /\ interp !! "raw_response" = Some response
    /\ interp !! "root_cause" = Some root_cause
    /\ root_cause <> "".
Proof.
  rewrite parse_interpretation_eq.
  destruct (primary_parse_lookup response) as (H1 & _ & _ & _ & H5).
  destruct (String.eqb (bold_field "Root Cause:" response) "") eqn:E.
  - exists (log_interpreter._fallback_parse response),
      (nth 0 (paragraphs response) "Unable to determine root cause").
    split; [reflexivity|]. split; [apply fallback_parse_keys|].
    split; [reflexivity|]. split; [reflexivity|].
    apply nth_nonempty; [apply paragraphs_nonempty | discriminate].
  - exists (primary_parse response), (bold_field "Root Cause:" response).
    split; [reflexivity|]. split; [apply primary_parse_keys|].
    split; [assumption|]. split; [assumption|]. now apply String.eqb_neq.
Qed.

Lemma search_simple_sections key pattern :
  (key, pattern) ∈ sections ->
  exists label, forall response,
    Re.search pattern response = bold_group label response
    /\ Re.search (pattern_simple pattern) response = plain_group label response.
Proof.
  unfold sections. rewrite !elem_of_cons, elem_of_nil.
  intros [[= -> ->] | [[= -> ->] | [[= -> ->] | [[= -> ->] | []]]]].
  - exists "Root Cause:". intros response. split; reflexivity.
  - exists "Affected Components:". intros response. split; reflexivity.
  - exists "Recommended Fix:". intros response. split; reflexivity.
  - exists "Prevention:". intros response. split; reflexivity.
Qed.

(** X15: the pattern without asterisks that [_parse_interpretation] builds
    for a section captures the empty text whenever it matches; so a
    section that the asterisk pattern does not find stays empty, and a
    response whose Root Cause the asterisk pattern does not find goes to
    the paragraph fallback. *)
Theorem plain_pattern_captures_nothing response :
  (forall key pattern group,
     (key, pattern) ∈ sections ->
     Re.search (pattern_simple pattern) response = Some group -> group = "")
  /\ (forall key pattern interp,
        (key, pattern) ∈ sections ->
        Re.search pattern response = None ->
        interp !! key = Some "" ->
        extract_section response interp (key, pattern) !! key = Some "")
  /\ (Re.search "\*\*Root Cause:\*\*\s*(.*?)(?=\*\*|$)" response = None ->
      _parse_interpretation response = Ok (log_interpreter._fallback_parse response)).
Proof.
  assert (forall key pattern group,
            (key, pattern) ∈ sections ->
            Re.search (pattern_simple pattern) response = Some group -> group = "")
    as Hplain.
  { intros key pattern group (label & Hlabel)%search_simple_sections.
    destruct (Hlabel response) as [_ ->]. apply plain_group_empty. }
  split; [exact Hplain|]. split.
  - intros key pattern interp Hin Hbold Hinit.
    rewrite extract_section_lookup, decide_True by reflexivity. rewrite Hbold.
    destruct (Re.search (pattern_simple pattern) response) as [g|] eqn:E; [|assumption].
    now rewrite (Hplain _ _ _ Hin E).
  - intros Hbold. rewrite parse_interpretation_eq. unfold bold_field.
    destruct (search_bold_patterns response) as (<- & _). now rewrite Hbold.
Qed.

Section InterpreterExtras.

Context {engine : Type}.

Variable generate : engine -> string -> float -> result string * engine.

Lemma interpret_step (self : LogInterpreter) error_log service_name r self' :
  interpret generate self error_log service_name = (r, self') ->
  match r with
  | Ok interp =>
      interpretation_history self'
      = (interpretation_history self
         ++ [{| service := service_name; interpretation_of := interp |}])%list
  | Raise e =>
      fst (generate (llm_engine self)
             (PromptTemplates.log_interpretation_prompt error_log service_name)
             temperature) = Raise e
  end.
Proof.
  unfold interpret.
  destruct (generate _ _ _) as [[response|e0] llm]; cbn [bind fst].
  - rewrite parse_interpretation_eq. cbn [bind]. now intros [= <- <-].
  - now intros [= <- <-].
Qed.

(** X17: [interpret] consults the service once and keeps its state; it
    raises exactly what the service raises and nothing else; when it
    returns, the result carries the service name, and the history has one
    more entry at its end; when it raises, the history is as before. *)
Theorem interpret_records (self : LogInterpreter) error_log service_name r self' :
  interpret generate self error_log service_name = (r, self') ->
  llm_engine self'
  = snd (generate (llm_engine self)
           (PromptTemplates.log_interpretation_prompt error_log service_name)
           temperature)
  /\ (forall e, r = Raise e <->
        fst (generate (llm_engine self)
               (PromptTemplates.log_interpretation_prompt error_log service_name)
               temperature) = Raise e)
  /\ match r with
     | Ok interp =>
         interp !! "service_name" = Some service_name
         /\ interpretation_history self'
            = (interpretation_history self
               ++ [{| service := service_name; interpretation_of := interp |}])%list
     | Raise e => interpretation_history self' = interpretation_history self
     end.
Proof.
  unfold interpret.
  destruct (generate _ _ _) as [[response|e0] llm]; cbn [bind snd fst].
  - rewrite parse_interpretation_eq. cbn [bind]. intros [= <- <-].
    split; [reflexivity|]. split; [split; discriminate|].
    split; [|reflexivity].
    rewrite lookup_insert_ne by discriminate. apply lookup_insert_eq.
  - intros [= <- <-]. split; [reflexivity|]. split; [intros e; split; intros [= ->]; reflexivity | reflexivity].
Qed.

End InterpreterExtras.

Lemma log_arguments_ok (log_entry : gmap string value) error_log service_name :
  log_arguments log_entry = Ok (error_log, service_name) ->
  log_entry !! "error_log" = Some (VStr error_log)
  /\ log_entry !! "service_name" = Some (VStr service_name).
Proof.
  unfold log_arguments, bug_classifier.getitem.
  destruct (log_entry !! "error_log") as [v1|]; cbn [bind]; [|discriminate].
  destruct (log_entry !! "service_name") as [v2|]; cbn [bind]; [|discriminate].
  destruct v1 as [ | | | | log | | ]; try discriminate.
  destruct v2 as [ | | | | name | | ]; try discriminate.
  cbn [bind bug_classifier.str_of]. now intros [= <- <-].
Qed.

Lemma services_of_fold (history : list history_item) : forall (acc : gset string) s,
  s ∈ fold_left (fun services item => {[ service item ]} ∪ services) history acc
  <-> s ∈ acc \/ exists item, item ∈ history /\ service item = s.
Proof.
  induction history as [|item history IH]; intros acc s; cbn [fold_left].
  - split; [auto | intros [H | (item & Hin & _)]; [assumption | now apply elem_of_nil in Hin]].
  - rewrite IH, elem_of_union, elem_of_singleton. split.
    + intros [[-> | H] | (item' & Hin & Hs)].
      * right. exists item. split; [apply list_elem_of_here | reflexivity].
      * now left.
      * right. exists item'. split; [now apply list_elem_of_further | assumption].
    + intros [H | (item' & Hin & Hs)]; [auto|].
      apply elem_of_cons in Hin as [-> | Hin]; [auto | right; eauto].
Qed.

Lemma services_of_size (history : list history_item) : forall acc : gset string,
  size (fold_left (fun services item => {[ service item ]} ∪ services) history acc)
  <= size acc + length history.
Proof.
  induction history as [|item history IH]; intros acc; cbn [fold_left length]; [lia|].
  etransitivity; [apply IH|].
  pose proof (size_union_alt ({[ service item ]} : gset string) acc) as Hsize.
  pose proof (subseteq_size (acc ∖ {[ service item ]}) acc ltac:(intros x [Hx _]%elem_of_difference; exact Hx)) as Hsub.
  rewrite size_singleton in Hsize. lia.
Qed.

Section InterpreterBatch.

Context {engine : Type}.

Variable generate : engine -> string -> float -> result string * engine.

(** X18: when [interpret_batch] returns, the history has grown by one
    entry for each log entry, in order; the results are the log entries,
    each with its interpretation under the key [interpretation], and the
    history entries carry their service names and the same
    interpretations. *)
Theorem interpret_batch_results (self : LogInterpreter) logs results self' :
  interpret_batch generate self logs = (Ok results, self') ->
  exists entries,
    interpretation_history self' = (interpretation_history self ++ entries)%list
    /\ map log_fields results = map (delete "interpretation") logs
    /\ map batch_interpretation results = map interpretation_of entries
    /\ map (fun log_entry => log_entry !! "service_name") logs
       = map (fun item => Some (VStr (service item))) entries.
Proof.
  revert self results self'. induction logs as [|entry rest IH]; intros self results self'.
  - intros [= <- <-]. exists []. now rewrite app_nil_r.
  - cbn [interpret_batch].
    destruct (log_arguments entry) as [[log name]|e] eqn:Hargs; [|discriminate].
    destruct (interpret generate self log name) as [[interp|e] self1] eqn:Hi;
      [|discriminate].
    destruct (interpret_batch generate self1 rest) as [[rs|e] self2] eqn:Hrest;
      cbn [bind]; [|discriminate].
    intros [= <- <-].
    destruct (IH _ _ _ Hrest) as (entries & Hh & Hf & Hcl & Hname).
    pose proof (interpret_step _ _ _ _ _ _ Hi) as Hh1. cbn beta iota in Hh1.
    apply log_arguments_ok in Hargs as [_ Hservice].
    exists ({| service := name; interpretation_of := interp |} :: entries).
    split; [rewrite Hh, Hh1, <- app_assoc; reflexivity|].
    cbn [map log_fields batch_interpretation interpretation_of service].
    now rewrite Hf, Hcl, Hname, Hservice.
Qed.

(** X19: when the service always answers and every log entry has a string
    [error_log] and a string [service_name], [interpret_batch] returns,
    one result for each log entry. *)
Theorem interpret_batch_total (self : LogInterpreter) logs :
  (forall llm prompt t, exists response llm', generate llm prompt t = (Ok response, llm')) ->
  Forall well_formed_entry logs ->
  exists results self',
    interpret_batch generate self logs = (Ok results, self')
    /\ length results = length logs.
Proof.
  intros Hgen Hlogs. revert self.
  induction Hlogs as [|entry rest (log & name & Hlog & Hname) _ IH]; intros self.
  - exists [], self. split; reflexivity.
  - cbn [interpret_batch].
    assert (log_arguments entry = Ok (log, name)) as ->
      by (unfold log_arguments, bug_classifier.getitem; now rewrite Hlog, Hname).
    destruct (Hgen (llm_engine self)
                (PromptTemplates.log_interpretation_prompt log name) temperature)
      as (response & llm & Hg).
    destruct (interpret generate self log name) as [[interp|e] self1] eqn:Hi.
    + destruct (IH self1) as (rs & self2 & -> & Hlen). cbn [bind].
      eexists _, _. split; [reflexivity|]. cbn [length]. now rewrite Hlen.
    + pose proof (interpret_step _ _ _ _ _ _ Hi) as Hfail. cbn beta iota in Hfail.
      rewrite Hg in Hfail. discriminate.
Qed.

Variable list_of_set : gset string -> list string.
Hypothesis list_of_set_elements : forall X, list_of_set X ≡ₚ elements X.

(** X20: [get_statistics] of the log interpreter counts the history; the
    services it lists are those of the history, each once; on an empty
    history the key [unique_services] is absent, and otherwise it is the
    length of that list, which is at least 1 and at most the length of the
    history. *)
Theorem get_statistics_services (self : @LogInterpreter engine) :
  let stats := get_statistics list_of_set self in
  let history := interpretation_history self in
  total_interpretations stats = Z.of_nat (length history)
  /\ NoDup (services_analyzed stats)
  /\ (forall s, s ∈ services_analyzed stats
               <-> exists item, item ∈ history /\ service item = s)
  /\ (history = [] -> unique_services stats = None)
  /\ (history <> [] ->
      unique_services stats = Some (Z.of_nat (length (services_analyzed stats)))
      /\ 1 <= length (services_analyzed stats) <= length history).
Proof.
  intros stats history. subst stats. unfold get_statistics. fold history.
  destruct history as [|item rest] eqn:E.
  - cbn [total_interpretations services_analyzed unique_services length].
    split; [reflexivity|]. split; [apply NoDup_nil_2|]. split.
    + intros s. split; [intros H; now apply elem_of_nil in H|].
      intros (item & Hin & _). now apply elem_of_nil in Hin.
    + split; [reflexivity | congruence].
  - cbn [total_interpretations services_analyzed unique_services].
    set (services := services_of (item :: rest)).
    assert (length (list_of_set services) = size services) as Hlen.
    { rewrite (Permutation_length (list_of_set_elements services)). reflexivity. }
    assert (forall s, s ∈ list_of_set services <-> s ∈ services) as Hel.
    { intros s. rewrite (list_of_set_elements services). apply elem_of_elements. }
    split; [reflexivity|]. split.
    { rewrite (list_of_set_elements services). apply NoDup_elements. }
    split.
    { intros s. rewrite Hel. unfold services, services_of.
      rewrite services_of_fold, elem_of_empty. tauto. }
    split; [discriminate|]. intros _. rewrite Hlen. split; [reflexivity|].
    split.
    + assert (service item ∈ services) as Hin.
      { unfold services, services_of. apply services_of_fold. right.
        exists item. split; [apply list_elem_of_here | reflexivity]. }
      destruct (decide (size services = 0)) as [H0|]; [|lia].
      apply size_empty_inv in H0. rewrite (H0 (service item)) in Hin.
      now apply elem_of_empty in Hin.
    + pose proof (services_of_size (item :: rest) ∅) as H.
      rewrite size_empty in H. exact H.
Qed.

End InterpreterBatch.

Lemma paragraphs_stripped response : Forall (fun p => strip p = p) (paragraphs response).
Proof.
  unfold paragraphs. induction (split_blank response) as [|p ps IH]; [constructor|].
  cbn [List.filter]. destruct (negb (String.eqb (strip p) "")); [|exact IH].
  cbn [map]. constructor; [apply strip_fixed | exact IH].
Qed.

Lemma nth_Forall {A} (P : A -> Prop) (l : list A) n placeholder :
  Forall P l -> P placeholder -> P (nth n l placeholder).
Proof.
  intros Hl Hp. revert n. induction Hl as [|p ps Hne _ IH]; intros [|n]; cbn [nth]; auto.
Qed.

(** X16: each of the four fields that the fallback of the log interpreter
    fills is a text that is not empty and has no whitespace at either
    end. *)
Theorem fallback_fields_clean response key :
  key ∈ ["root_cause"; "affected_components"; "recommended_fix"; "prevention"] ->
  exists text,
    log_interpreter._fallback_parse response !! key = Some text
    /\ text <> ""
    /\ strip text = text.
Proof.
  pose proof (paragraphs_nonempty response) as Hne.
  pose proof (paragraphs_stripped response) as Hst.
  assert (forall n placeholder, placeholder <> "" -> strip placeholder = placeholder ->
            nth n (paragraphs response) placeholder <> ""
            /\ strip (nth n (paragraphs response) placeholder)
               = nth n (paragraphs response) placeholder) as Hnth.
  { intros n placeholder H1 H2.
    apply (nth_Forall (fun p => p <> "" /\ strip p = p)); [|auto].
    apply Forall_and; auto. }
  rewrite !elem_of_cons, elem_of_nil.
  intros [-> | [-> | [-> | [-> | []]]]]; eexists; (split; [reflexivity|]);
    apply Hnth; (discriminate || reflexivity).
Qed.

(** X17 on an interpreter whose service answers with three sections. *)
Lemma interpret_records_witness :
  llm_engine (snd interpreted)
  = snd (samples.canned samples.response_three []
           (PromptTemplates.log_interpretation_prompt
              "Traceback (most recent call last)" "orders")
           temperature)
  /\ (forall e, fst interpreted = Raise e <->
        fst (samples.canned samples.response_three []
               (PromptTemplates.log_interpretation_prompt
                  "Traceback (most recent call last)" "orders")
               temperature) = Raise e)
  /\ match fst interpreted with
     | Ok interp =>
         interp !! "service_name" = Some "orders"
         /\ interpretation_history (snd interpreted)
            = (interpretation_history (init ([] : list string))
               ++ [{| service := "orders"; interpretation_of := interp |}])%list
     | Raise e => interpretation_history (snd interpreted) = interpretation_history (init ([] : list string))
     end.
Proof.
  apply (interpret_records (samples.canned samples.response_three) (init ([] : list string))
           "Traceback (most recent call last)" "orders" (fst interpreted) (snd interpreted)).
  reflexivity.
Defined.

(** X18 on a batch of one log entry. *)
Lemma interpret_batch_results_witness :
  exists entries,
    interpretation_history (snd batch_interpreted)
    = (interpretation_history (init ([] : list string)) ++ entries)%list
    /\ map log_fields
         [{| log_fields := samples.log_order;
             batch_interpretation := interpretation_three |}]
       = map (delete "interpretation") [samples.log_order]
    /\ map batch_interpretation
         [{| log_fields := samples.log_order;
             batch_interpretation := interpretation_three |}]
       = map interpretation_of entries
    /\ map (fun log_entry => log_entry !! "service_name") [samples.log_order]
       = map (fun item => Some (VStr (service item))) entries.
Proof.
  apply (interpret_batch_results (samples.canned samples.response_three) (init ([] : list string))
           [samples.log_order]
           [{| log_fields := samples.log_order;
               batch_interpretation := interpretation_three |}]
           (snd batch_interpreted)).
  reflexivity.
Defined.

(** X19 on a batch of one log entry. *)
Lemma interpret_batch_total_witness :
  exists results self',
    interpret_batch (samples.canned samples.response_three) (init ([] : list string)) [samples.log_order]
    = (Ok results, self')
    /\ length results = length [samples.log_order].
Proof.
  apply (interpret_batch_total (samples.canned samples.response_three) (init ([] : list string))
           [samples.log_order]).
  - intros llm prompt t. eexists _, _. reflexivity.
  - apply Forall_cons. split; [|apply Forall_nil_2].
    eexists _, _. split; reflexivity.
Defined.

(** X20 on the interpreter after one interpretation. *)
Lemma get_statistics_services_witness :
  let stats := get_statistics elements (snd interpreted) in
  let history := interpretation_history (snd interpreted) in
  total_interpretations stats = Z.of_nat (length history)
  /\ NoDup (services_analyzed stats)
  /\ (forall s, s ∈ services_analyzed stats
               <-> exists item, item ∈ history /\ service item = s)
  /\ (history = [] -> unique_services stats = None)
  /\ (history <> [] ->
      unique_services stats = Some (Z.of_nat (length (services_analyzed stats)))
      /\ 1 <= length (services_analyzed stats) <= length history).
Proof.
  apply (get_statistics_services elements).
  intros X. reflexivity.
Defined.

(** X16 on the prevention of a response of three paragraphs. *)
Lemma fallback_fields_clean_witness :
  exists text,
    log_interpreter._fallback_parse samples.response_unlabelled !! "prevention" = Some text
    /\ text <> ""
    /\ strip text = text.
Proof.
  apply (fallback_fields_clean samples.response_unlabelled "prevention").
  apply list_elem_of_further, list_elem_of_further, list_elem_of_further, list_elem_of_here.
Defined.

End LogInterpreterProofs.

(** ** The response kept by the engine *)

Module LLMEngineProofs.

Import LLMEngine StringFacts.

Lemma cut_at_some (sep s before after : string) :
  Re.cut_at sep s = Some (before, after) -> s = before +:+ sep +:+ after.
Proof.
  revert before. induction s as [|c s IH]; intros before.
  - cbn [Re.cut_at]. destruct (String.prefix sep "") eqn:E; [|discriminate].
    intros [= <- <-]. rewrite append_nil. now apply prefix_drop.
  - cbn [Re.cut_at]. destruct (String.prefix sep (String c s)) eqn:E.
    + intros [= <- <-]. rewrite append_nil. now apply prefix_drop.
    + destruct (Re.cut_at sep s) as [[b a]|]; [|discriminate].
      intros [= <- <-]. rewrite append_cons. f_equal. now apply IH.
Qed.

Lemma cut_at_none (sep s : string) :
  Re.cut_at sep s = None <-> contains sep s = false.
Proof.
  induction s as [|c s IH]; cbn [Re.cut_at contains].
  - destruct (String.prefix sep ""); cbn [orb]; split; congruence.
  - destruct (String.prefix sep (String c s)); cbn [orb]; [split; congruence|].
    rewrite <- IH. destruct (Re.cut_at sep s) as [[b a]|]; split; congruence.
Qed.

Lemma last_piece_fuel_spec (sep : string) : sep <> "" ->
  forall fuel s, String.length s <= fuel ->
    contains sep (last_piece_fuel fuel sep s) = false
    /\ (last_piece_fuel fuel sep s = s
        \/ exists pre, s = pre +:+ sep +:+ last_piece_fuel fuel sep s).
Proof.
  intros Hsep. induction fuel as [|fuel IH]; intros s Hlen.
  - destruct s; [|cbn in Hlen; lia]. cbn [last_piece_fuel contains].
    split; [|now left]. destruct sep; [congruence | reflexivity].
  - cbn [last_piece_fuel].
    destruct (Re.cut_at sep s) as [[before after]|] eqn:E.
    + apply cut_at_some in E. 
      assert (String.length after <= fuel) as Hafter.
      { apply (f_equal String.length) in E. rewrite !append_length in E.
        destruct sep; [congruence|]. cbn [String.length] in E. lia. }
      destruct (IH after Hafter) as [Hno Hpre]. split; [assumption|]. right.
      destruct Hpre as [-> | (pre & Hpre)]; [now exists before|].
      exists (before +:+ sep +:+ pre). rewrite E, Hpre at 1.
      now rewrite !append_assoc.
    + split; [now apply cut_at_none | now left].
Qed.

(** X21: the response that [generate] keeps of the decoded text has no
    whitespace at either end, does not contain the marker that ends the
    instruction block, and is a part of the text; when the marker occurs,
    the response is the stripped text after its last occurrence. *)
Theorem extract_response_clean (full_text : string) :
  let response := extract_response full_text in
  strip response = response
  /\ contains marker response = false
  /\ (exists before after, full_text = before +:+ response +:+ after)
  /\ (contains marker full_text = true ->
      exists before tail,
        full_text = before +:+ marker +:+ tail
        /\ contains marker tail = false
        /\ response = strip tail).
Proof.
  cbv zeta. unfold extract_response.
  destruct (contains marker full_text) eqn:E.
  - destruct (last_piece_fuel_spec marker ltac:(discriminate)
                (String.length full_text) full_text (Nat.le_refl _)) as [Hno Hpre].
    fold (last_piece marker full_text) in Hno, Hpre.
    destruct Hpre as [Heq | (pre & Hpre)]; [rewrite Heq in Hno; congruence|].
    split; [apply strip_fixed|]. split; [|split].
    + destruct (contains marker (strip (last_piece marker full_text))) eqn:Hc;
        [|reflexivity].
      destruct (strip_within (last_piece marker full_text)) as (b & a & Hs).
      apply (contains_within _ _ b a) in Hc. rewrite <- Hs in Hc. congruence.
    + destruct (strip_within (last_piece marker full_text)) as (b & a & Hs).
      exists (pre +:+ marker +:+ b), a. rewrite Hpre at 1. rewrite Hs at 1.
      now rewrite !append_assoc.
    + intros _. exists pre, (last_piece marker full_text). auto.
  - split; [apply strip_fixed|]. split; [|split; [apply strip_within | discriminate]].
    destruct (contains marker (strip full_text)) eqn:Hc; [|reflexivity].
    destruct (strip_within full_text) as (b & a & Hs).
    apply (contains_within _ _ b a) in Hc. rewrite <- Hs in Hc. congruence.
Qed.

End LLMEngineProofs.

(** ** The counts of the classification experiment *)

Module ExperimentProofs.

Import classification_experiment ExperimentSpec.

Lemma count_bump (c : gmap string Z) k s :
  count (bump c k) s = (count c s + indicator (String.eqb s k))%Z.
Proof.
  unfold bump, count at 1. destruct (String.eqb s k) eqn:E.
  - apply String.eqb_eq in E as ->. rewrite lookup_insert_eq. reflexivity.
  - apply String.eqb_neq in E. rewrite lookup_insert_ne by congruence.
    unfold count, indicator. lia.
Qed.

Lemma filter_length_cons {A} (test : A -> bool) x (l : list A) :
  Z.of_nat (length (List.filter test (x :: l)))
  = (indicator (test x) + Z.of_nat (length (List.filter test l)))%Z.
Proof. cbn [List.filter]. destruct (test x); cbn [length indicator]; lia. Qed.

Lemma tally_fold (pairs : list (string * string)) : forall (t : tallies) s,
  let t' := fold_left tally_step pairs t in
  (count (tp t') s + count (fn t') s
   = count (tp t) s + count (fn t) s
     + Z.of_nat (length (List.filter (fun pair => String.eqb s (snd pair)) pairs)))%Z
  /\ (count (tp t') s + count (fp t') s
      = count (tp t) s + count (fp t) s
        + Z.of_nat (length (List.filter (fun pair => String.eqb s (fst pair)) pairs)))%Z
  /\ (count (tp t') s
      = count (tp t) s
        + Z.of_nat (length (List.filter
                              (fun pair => String.eqb (fst pair) (snd pair)
                                           && String.eqb s (fst pair)) pairs)))%Z.
Proof.
  induction pairs as [|[pred truth] pairs IH]; intros t s; cbn [fold_left].
  - cbn. lia.
  - destruct (IH (tally_step t (pred, truth)) s) as (H1 & H2 & H3).
    cbv zeta. rewrite H1, H2, H3, !filter_length_cons. cbn [fst snd tally_step].
    destruct (String.eqb pred truth) eqn:E; cbn [tp fp fn andb].
    + apply String.eqb_eq in E as ->. rewrite !count_bump. lia.
    + rewrite !count_bump. cbn [indicator]. lia.
Qed.

Lemma support_pairs (predictions ground_truth : list string) (severity : string) :
  support (tally predictions ground_truth) severity
  = Z.of_nat (length (List.filter (fun pair => String.eqb severity (snd pair))
                        (combine predictions ground_truth))).
Proof.
  unfold tally, support.
  destruct (tally_fold (combine predictions ground_truth)
              {| tp := ∅; fp := ∅; fn := ∅ |} severity) as (H1 & _).
  cbv zeta in H1. rewrite H1. cbn [tp fp fn]. unfold count.
  rewrite lookup_empty. cbn [default]. lia.
Qed.

(** X22: after the counting loop of [calculate_accuracy_metrics], for
    every label: its support is the number of compared pairs whose ground
    truth is the label, its true and false positives together are the
    pairs predicted as the label, and its true positives are the pairs
    where prediction and ground truth both are the label. *)
Theorem tally_counts (predictions ground_truth : list string) (severity : string) :
  let t := tally predictions ground_truth in
  support t severity
  = pairs_where (fun pair => String.eqb severity (snd pair)) predictions ground_truth
  /\ (count (tp t) severity + count (fp t) severity)%Z
     = pairs_where (fun pair => String.eqb severity (fst pair)) predictions ground_truth
  /\ count (tp t) severity
     = pairs_where (fun pair => String.eqb (fst pair) (snd pair)
                                && String.eqb severity (fst pair))
         predictions ground_truth.
Proof.
  cbv zeta. unfold tally, support, pairs_where.
  destruct (tally_fold (combine predictions ground_truth)
              {| tp := ∅; fp := ∅; fn := ∅ |} severity) as (H1 & H2 & H3).
  cbv zeta in H1, H2, H3. rewrite H1, H2, H3. cbn [tp fp fn]. unfold count.
  rewrite lookup_empty. cbn [default]. lia.
Qed.

Lemma class_indicators (truth : string) :
  (indicator (String.eqb "Critical" truth) + indicator (String.eqb "High" truth)
   + indicator (String.eqb "Medium" truth) + indicator (String.eqb "Low" truth))%Z
  = indicator (existsb (String.eqb truth) severity_classes).
Proof.
  cbn [existsb severity_classes].
  rewrite (String.eqb_sym truth "Critical"), (String.eqb_sym truth "High"),
    (String.eqb_sym truth "Medium"), (String.eqb_sym truth "Low").
  destruct (String.eqb "Critical" truth) eqn:E1;
    [apply String.eqb_eq in E1 as <-; reflexivity|].
  destruct (String.eqb "High" truth) eqn:E2;
    [apply String.eqb_eq in E2 as <-; reflexivity|].
  destruct (String.eqb "Medium" truth) eqn:E3;
    [apply String.eqb_eq in E3 as <-; reflexivity|].
  destruct (String.eqb "Low" truth); reflexivity.
Qed.

Lemma class_pairs (pairs : list (string * string)) :
  (Z.of_nat (length (List.filter (fun pair => String.eqb "Critical" (snd pair)) pairs))
   + Z.of_nat (length (List.filter (fun pair => String.eqb "High" (snd pair)) pairs))
   + Z.of_nat (length (List.filter (fun pair => String.eqb "Medium" (snd pair)) pairs))
   + Z.of_nat (length (List.filter (fun pair => String.eqb "Low" (snd pair)) pairs)))%Z
  = Z.of_nat (length (List.filter
                        (fun pair => existsb (String.eqb (snd pair)) severity_classes)
                        pairs)).
Proof.
  induction pairs as [|pair pairs IH]; [reflexivity|].
  rewrite !filter_length_cons, <- IH, <- class_indicators. lia.
Qed.

Lemma correct_fold (pairs : list (string * string)) : forall total : Z,
  fold_left (fun total pair => if String.eqb (fst pair) (snd pair) then (total + 1)%Z else total)
    pairs total
  = (total + Z.of_nat (length (List.filter (fun pair => String.eqb (fst pair) (snd pair))
                                 pairs)))%Z.
Proof.
  induction pairs as [|pair pairs IH]; intros total; cbn [fold_left].
  - cbn. lia.
  - rewrite IH, filter_length_cons.
    destruct (String.eqb (fst pair) (snd pair)); cbn [indicator]; lia.
Qed.

Lemma filter_all {A} (test : A -> bool) (l : list A) :
  Forall (fun x => test x = true) l -> List.filter test l = l.
Proof.
  induction 1 as [|x l Hx _ IH]; [reflexivity|]. cbn [List.filter]. now rewrite Hx, IH.
Qed.

Lemma combine_snd_Forall {A B} (P : B -> Prop) (xs : list A) : forall ys : list B,
  Forall P ys -> Forall (fun pair => P (snd pair)) (combine xs ys).
Proof.
  induction xs as [|x xs IH]; intros ys Hys; [constructor|].
  destruct Hys as [|y ys Hy Hys]; [constructor|].
  cbn [combine]. constructor; [exact Hy | now apply IH].
Qed.

(** X23: [total_samples] is the number of compared pairs whose ground
    truth is one of the four classes, so all the compared pairs, the
    shorter of the two lists, when every ground truth is one of them;
    [correct_predictions] is the number of pairs that agree, at most the
    number of compared pairs. *)
Theorem total_samples_counts (predictions ground_truth : list string) :
  let t := tally predictions ground_truth in
  total_samples t
  = pairs_where (fun pair => existsb (String.eqb (snd pair)) severity_classes)
      predictions ground_truth
  /\ (Forall (fun truth => truth ∈ severity_classes) ground_truth ->
      total_samples t
      = Z.of_nat (Nat.min (length predictions) (length ground_truth)))
  /\ correct_predictions predictions ground_truth
     = pairs_where (fun pair => String.eqb (fst pair) (snd pair)) predictions ground_truth
  /\ (correct_predictions predictions ground_truth
      <= Z.of_nat (Nat.min (length predictions) (length ground_truth)))%Z.
Proof.
  cbv zeta.
  assert (total_samples (tally predictions ground_truth)
          = pairs_where (fun pair => existsb (String.eqb (snd pair)) severity_classes)
              predictions ground_truth) as Htotal.
  { unfold total_samples, severity_classes. cbn [fold_left].
    rewrite !support_pairs. unfold pairs_where. rewrite <- class_pairs. lia. }
  assert (correct_predictions predictions ground_truth
          = pairs_where (fun pair => String.eqb (fst pair) (snd pair))
              predictions ground_truth) as Hcorrect.
  { unfold correct_predictions, pairs_where. rewrite correct_fold. lia. }
  split; [exact Htotal|]. split; [|split; [exact Hcorrect|]].
  - intros Hg. rewrite Htotal. unfold pairs_where. rewrite filter_all.
    + now rewrite length_combine.
    + apply (combine_snd_Forall (fun truth => existsb (String.eqb truth) severity_classes = true)).
      eapply Forall_impl; [exact Hg|]. intros truth Hin. apply existsb_exists.
      exists truth. split; [now apply list_elem_of_In | apply String.eqb_refl].
  - rewrite Hcorrect. unfold pairs_where. rewrite <- length_combine.
    apply Nat2Z.inj_le, List.filter_length_le.
Qed.

End ExperimentProofs.
